(** * Calypso: fidelity comparator, structure classifier, duplication
    detector and validation state manager.

    Shallow embedding of the Python tools under [Calypso/tools] and
    [generate_chapter_html.py].  Python [str] values are modelled as
    [string] (ASCII characters); Python [set]s of words are stdpp [gset]s;
    Python [float] font sizes and coverage percentages are modelled as
    exact rationals [Q]. *)

From Stdlib Require Import QArith Qround Qabs Lqa Ascii String Bool List Permutation Sorted Lia.
From stdpp Require Import base list list_tactics gmap sets strings pretty.

Open Scope string_scope.
Open Scope list_scope.
Open Scope nat_scope.

(* ================================================================== *)
(** ** Python string primitives (ASCII fragment) *)

Module Py.

(** Python's [a < b] on the rationals (Python floats). *)
Definition Qlt_bool (a b : Q) : bool := negb (Qle_bool b a).


(** [str.isspace] on ASCII: \t \n \v \f \r, the separators \x1c-\x1f,
    and the space. *)
Definition is_ws (c : ascii) : bool :=
  let n := nat_of_ascii c in
  ((9 <=? n) && (n <=? 13)) || ((28 <=? n) && (n <=? 32)).

Definition flush (cur : string) : list string :=
  match cur with
  | EmptyString => []
  | _ => [cur]
  end.

(** [str.split()] with no argument: split on whitespace runs, dropping
    empty pieces. *)
Fixpoint split_aux (cur : string) (s : string) : list string :=
  match s with
  | EmptyString => flush cur
  | String c s' =>
      if is_ws c then flush cur ++ split_aux EmptyString s'
      else split_aux (String.append cur (String c EmptyString)) s'
  end.

Definition split (s : string) : list string := split_aux EmptyString s.

(** [str.lstrip()] / [str.rstrip()] / [str.strip()]. *)
Fixpoint lstrip (s : string) : string :=
  match s with
  | EmptyString => EmptyString
  | String c s' => if is_ws c then lstrip s' else s
  end.

Fixpoint rstrip (s : string) : string :=
  match s with
  | EmptyString => EmptyString
  | String c s' =>
      match rstrip s' with
      | EmptyString => if is_ws c then EmptyString else String c EmptyString
      | r => String c r
      end
  end.

Definition strip (s : string) : string := rstrip (lstrip s).

(** [sep.join(xs)]. *)
Fixpoint join (sep : string) (xs : list string) : string :=
  match xs with
  | [] => EmptyString
  | [x] => x
  | x :: xs' => String.append x (String.append sep (join sep xs'))
  end.

Definition is_upper_char (c : ascii) : bool :=
  let n := nat_of_ascii c in (65 <=? n) && (n <=? 90).
Definition is_lower_char (c : ascii) : bool :=
  let n := nat_of_ascii c in (97 <=? n) && (n <=? 122).

Definition lower_char (c : ascii) : ascii :=
  if is_upper_char c then ascii_of_nat (nat_of_ascii c + 32) else c.

Fixpoint lower (s : string) : string :=
  match s with
  | EmptyString => EmptyString
  | String c s' => String (lower_char c) (lower s')
  end.

Fixpoint string_forallb (p : ascii -> bool) (s : string) : bool :=
  match s with
  | EmptyString => true
  | String c s' => p c && string_forallb p s'
  end.

Fixpoint string_existsb (p : ascii -> bool) (s : string) : bool :=
  match s with
  | EmptyString => false
  | String c s' => p c || string_existsb p s'
  end.

(** [str.isupper()]: at least one cased character and no lower-case one. *)
Definition isupper (s : string) : bool :=
  string_existsb is_upper_char s && negb (string_existsb is_lower_char s).

Fixpoint string_filter (p : ascii -> bool) (s : string) : string :=
  match s with
  | EmptyString => EmptyString
  | String c s' => if p c then String c (string_filter p s') else string_filter p s'
  end.

End Py.

(* ================================================================== *)
(** ** Fidelity comparator ([detailed_page_diff.py]) *)

Module PageDiff.

(** [tokenize_words]: [text.split()]. *)
Definition tokenize_words (text : string) : list string := Py.split text.

(** Characters kept by [re.sub(r'[^\w\-]', '', word)]: [\w] on ASCII is
    letters, digits and underscore; the hyphen is kept too. *)
Definition is_word_or_hyphen (c : ascii) : bool :=
  let n := nat_of_ascii c in
  ((48 <=? n) && (n <=? 57)) || ((65 <=? n) && (n <=? 90)) ||
  ((97 <=? n) && (n <=? 122)) || (n =? 95) || (n =? 45).

(** [normalize_word]: lower-case, then keep only word characters and
    hyphens. *)
Definition normalize_word (word : string) : string :=
  Py.string_filter is_word_or_hyphen (Py.lower word).

(** [find_missing_and_extra]: set differences of the normalized word sets. *)
Definition word_set (words : list string) : gset string :=
  list_to_set (map normalize_word words).

Definition find_missing_and_extra (json_words html_words : list string)
  : gset string * gset string :=
  let json_set := word_set json_words in
  let html_set := word_set html_words in
  (json_set ∖ html_set, html_set ∖ json_set).

(** [coverage = (html_word_count / json_word_count * 100)
      if json_word_count > 0 else 0]. *)
Definition coverage (json_word_count html_word_count : nat) : Q :=
  if (0 <? json_word_count)%nat
  then ((inject_Z (Z.of_nat html_word_count) / inject_Z (Z.of_nat json_word_count)) * 100)%Q
  else 0%Q.

Inductive verdict := Rejected | Perfect | Excellent | Acceptable | Failed.

(** The status ladder of [main]. *)
Definition status (cov : Q) : verdict :=
  if Py.Qlt_bool 100%Q cov then Rejected
  else if Qle_bool 100%Q cov then Perfect
  else if Qle_bool 99%Q cov then Excellent
  else if Qle_bool 95%Q cov then Acceptable
  else Failed.

(** The formatting glyph set ['-â€¢â€“â€”.']: its ASCII members are the
    hyphen and the full stop; the others are outside the ASCII model. *)
Definition formatting_glyphs : list ascii := ["-"%char; "."%char].

Definition is_formatting_word (word : string) : bool :=
  Py.string_forallb (fun c => bool_decide (c ∈ formatting_glyphs)) word
  || (String.length word <=? 1)%nat.

(** Categorisation of [missing_words], done by [main] only in the branch
    [coverage <= 105 and coverage < 100 and missing_words]. *)
Definition categorize (cov : Q) (missing : gset string)
  : gset string * gset string :=
  if Py.Qlt_bool 105%Q cov then (∅, ∅)
  else if Py.Qlt_bool cov 100%Q && bool_decide (missing ≠ ∅) then
    (filter (fun w => is_formatting_word w = false) missing,
     filter (fun w => is_formatting_word w = true) missing)
  else (∅, ∅).

Record report := {
  r_coverage : Q;
  r_missing : gset string;
  r_extra : gset string;
  r_missing_content : gset string;
  r_missing_formatting : gset string;
  r_verdict : verdict
}.

(** The pure part of [main], from the two extracted texts. *)
Definition diff (json_text html_text : string) : report :=
  let json_words := tokenize_words json_text in
  let html_words := tokenize_words html_text in
  let cov := coverage (length json_words) (length html_words) in
  let '(missing, extra) := find_missing_and_extra json_words html_words in
  let '(critical, formatting) := categorize cov missing in
  {| r_coverage := cov; r_missing := missing; r_extra := extra;
     r_missing_content := critical; r_missing_formatting := formatting;
     r_verdict := status cov |}.

(** Python's slice [l[a:b]] for [0 <= a]: the indices [a <= i < b] that
    exist. *)
Definition slice {A} (l : list A) (a b : nat) : list A := firstn (b - a) (skipn a l).

(** An entry of [find_missing_context]. *)
Record context_item := mk_ctx {
  c_word : string;
  c_original_word : string;
  c_position : nat;
  c_context : string;
  c_before : string;
  c_after : string
}.

(** The loop [for i, normalized in enumerate(json_normalized)], from
    index [i]; [missing_words] is tested with Python's [in]. *)
Fixpoint missing_context_from (json_words missing_words : list string)
    (context_size i : nat) (ns : list string) : list context_item :=
  match ns with
  | [] => []
  | normalized :: ns' =>
      let rest := missing_context_from json_words missing_words context_size (S i) ns' in
      if existsb (String.eqb normalized) missing_words then
        let n := length json_words in
        let start := i - context_size in
        let end_ := Nat.min n (i + context_size + 1) in
        mk_ctx (nth i json_words EmptyString) (nth i json_words EmptyString) i
               (Py.join " " (slice json_words start end_))
               (Py.join " " (slice json_words (i - 2) i))
               (Py.join " " (slice json_words (S i) (Nat.min n (i + 3))))
          :: rest
      else rest
  end.

Definition find_missing_context (json_words html_words missing_words : list string)
    (context_size : nat) : list context_item :=
  missing_context_from json_words missing_words context_size 0 (map normalize_word json_words).

(** An entry of [find_word_sequences]. *)
Record seq_entry := mk_seq { s_index : nat; s_original : string; s_start : nat; s_end : nat }.

Definition sequence_key (words : list string) (context_size i : nat) : string :=
  Py.join " " (map normalize_word (slice words i (i + context_size))).

Definition sequence_entry (words : list string) (context_size i : nat) : seq_entry :=
  mk_seq i (Py.join " " (slice words i (i + context_size))) i (i + context_size).

(** [for i in range(len(words) - context_size)]: [sequences[seq]] is
    created empty on first use, then appended to. *)
Definition find_word_sequences (words : list string) (context_size : nat)
  : gmap string (list seq_entry) :=
  fold_left (fun sequences i =>
               let key := sequence_key words context_size i in
               <[key := default [] (sequences !! key) ++ [sequence_entry words context_size i]]>
                 sequences)
            (seq 0 (length words - context_size)) ∅.

(** The RECOMMENDATION ladder of [main]. *)
Inductive recommendation := RecReject | RecPerfect | RecExcellent | RecGood | RecAcceptable | RecFail.

Definition recommend (cov : Q) : recommendation :=
  if Py.Qlt_bool 100%Q cov then RecReject
  else if Qle_bool 100%Q cov then RecPerfect
  else if Qle_bool (199 # 2)%Q cov then RecExcellent
  else if Qle_bool 98%Q cov then RecGood
  else if Qle_bool 95%Q cov then RecAcceptable
  else RecFail.

(** [extract_text_from_json] on the loaded JSON: [data.get('pages', {})]
    is [None] when the key is absent; a page's [get('text_spans', [])]
    and a span's [get('text', '')] likewise. *)
Definition span_text (sp : option string) : string := default EmptyString sp.

Definition page_chunks (page_data : option (list (option string))) : list string :=
  List.filter (fun t => negb (String.eqb t EmptyString))
              (map (fun sp => Py.strip (span_text sp)) (default [] page_data)).

Definition extract_text_from_json
    (data : option (gmap string (option (list (option string))))) (page_num : Z) : string :=
  let pages := default ∅ data in
  let page_key := pretty page_num in
  match pages !! page_key with
  | Some page_data => Py.join " " (page_chunks page_data)
  | None => Py.join " " []
  end.

(** The characters a normalised word is made of. *)
Definition normal_char (c : ascii) : bool := is_word_or_hyphen c && negb (Py.is_upper_char c).

End PageDiff.

(* ================================================================== *)
(** ** Structure classifier ([semantic_html_generator.py]) *)

Module Semantic.

(** A text span of the rich extraction: [span["text"]], [span["size"]],
    [span["bold"]], [span["italic"]]. *)
Record span := mk_span {
  text : string;
  size : Q;
  bold : bool;
  italic : bool
}.

(** An entry of [current_group]. *)
Record gspan := mk_gspan { g_text : string; g_italic : bool; g_bold : bool }.

(** The dictionaries appended to [elements]: a heading carries
    [current_heading_level], which Python may leave at [None]. *)
Inductive element :=
  | Heading (level : option nat) (text : string)
  | Paragraph (text : string) (italic : bool).

Definition elem_text (e : element) : string :=
  match e with Heading _ t => t | Paragraph t _ => t end.

(** [flush_group]: [None] on an empty group. *)
Definition flush_group (group : list gspan) : option element :=
  match group with
  | [] => None
  | _ => Some (Paragraph (Py.join " " (map g_text group)) (existsb g_italic group))
  end.

(** The local variables of the loop of [group_text_spans_into_elements]. *)
Record state := mk_state {
  elements : list element;
  current_group : list gspan;
  current_heading_parts : list string;
  current_heading_level : option nat
}.

Definition init : state := mk_state [] [] [] None.

(** [elements.append({"type": "heading", "level": current_heading_level,
    "text": " ".join(current_heading_parts)})]. *)
Definition heading_of (st : state) : element :=
  Heading (current_heading_level st) (Py.join " " (current_heading_parts st)).

(** The noise list [['●', '○', '*']]: its ASCII member is ["*"]. *)
Definition noise_texts : list string := ["*"].

Definition is_noise (text : string) : bool :=
  (String.length text <? 2) || bool_decide (text ∈ noise_texts).

Definition is_heading_candidate (sp : span) (text : string) (is_all_caps : bool) : bool :=
  (Py.Qlt_bool 50 (size sp) && (1 <? String.length text))
  || (Py.Qlt_bool 20 (size sp) && bold sp)
  || (bold sp && (is_all_caps || Py.Qlt_bool (23 # 2) (size sp))).

Definition heading_level (sp : span) (text : string) (is_all_caps : bool) : nat :=
  if Py.Qlt_bool 50 (size sp) && (1 <? String.length text) then 1
  else if Py.Qlt_bool 20 (size sp) && bold sp then 2
  else if is_all_caps then 3 else 4.

(** One iteration of [for span in text_spans]. *)
Definition step (st : state) (sp : span) : state :=
  let text := Py.strip (Semantic.text sp) in
  if String.eqb text EmptyString then st else
  let is_all_caps := Py.isupper text && (2 <? String.length text) in
  if is_noise text then st else
  if is_heading_candidate sp text is_all_caps then
    let lvl := heading_level sp text is_all_caps in
    (* flush of the previous heading run or paragraph group *)
    let st1 :=
      match current_heading_level st with
      | Some l =>
          if negb (l =? lvl) then
            mk_state (elements st ++ match current_heading_parts st with
                                     | [] => [] | _ => [heading_of st] end)
                     (current_group st) [] (current_heading_level st)
          else
            match current_group st with
            | [] => st
            | g => mk_state (elements st ++ option_list (flush_group g)) []
                            (current_heading_parts st) (current_heading_level st)
            end
      | None =>
          match current_group st with
          | [] => st
          | g => mk_state (elements st ++ option_list (flush_group g)) []
                          (current_heading_parts st) (current_heading_level st)
          end
      end in
    if lvl <=? 3 then
      mk_state (elements st1) (current_group st1)
               (current_heading_parts st1 ++ [text]) (Some lvl)
    else
      let st2 :=
        match current_heading_parts st1 with
        | [] => st1
        | _ => mk_state (elements st1 ++ [heading_of st1]) (current_group st1) [] None
        end in
      mk_state (elements st2 ++ [Heading (Some lvl) text]) (current_group st2)
               (current_heading_parts st2) (current_heading_level st2)
  else
    let st1 :=
      match current_heading_parts st with
      | [] => st
      | _ => mk_state (elements st ++ [heading_of st]) (current_group st) [] None
      end in
    mk_state (elements st1)
             (current_group st1 ++ [mk_gspan text (italic sp) (bold sp)])
             (current_heading_parts st1) (current_heading_level st1).

(** The two flushes after the loop. *)
Definition finish (st : state) : list element :=
  let els := match current_heading_parts st with
             | [] => elements st | _ => elements st ++ [heading_of st] end in
  match current_group st with
  | [] => els
  | g => els ++ option_list (flush_group g)
  end.

Definition group_text_spans_into_elements (text_spans : list span) : list element :=
  match text_spans with
  | [] => []
  | _ => finish (fold_left step text_spans init)
  end.

(** Vocabulary of the properties below. *)

Definition elems_tokens (els : list element) : list string :=
  concat (map (fun e => Py.split (elem_text e)) els).

(** Every token held by the loop's local variables. *)
Definition state_tokens (st : state) : list string :=
  elems_tokens (elements st)
  ++ concat (map Py.split (current_heading_parts st))
  ++ concat (map Py.split (map g_text (current_group st))).

Definition kept (sp : span) : bool := negb (is_noise (Py.strip (text sp))).

Definition is_heading (e : element) : bool :=
  match e with Heading _ _ => true | Paragraph _ _ => false end.

(** Some heading has been emitted or a heading run is pending. *)
Definition heading_seen (st : state) : bool :=
  existsb is_heading (elements st)
  || match current_heading_parts st with [] => false | _ => true end.

Definition heading_span (sp : span) : bool :=
  let t := Py.strip (text sp) in
  kept sp && is_heading_candidate sp t (Py.isupper t && (2 <? String.length t)).

(** [html.escape(s)] (quote=True): the replacements of the ampersand,
    less-than, greater-than, double quote and single quote, in that
    order; since no replacement introduces a later target character, this
    is the per-character translation below. *)
Definition escape_char (c : ascii) : string :=
  if Ascii.eqb c "&"%char then "&amp;"
  else if Ascii.eqb c "<"%char then "&lt;"
  else if Ascii.eqb c ">"%char then "&gt;"
  else if Ascii.eqb c "034"%char then "&quot;"
  else if Ascii.eqb c "039"%char then "&#x27;"
  else String c EmptyString.

Fixpoint escape (s : string) : string :=
  match s with
  | EmptyString => EmptyString
  | String c s' => escape_char c +:+ escape s'
  end.

(** The characters that [escape] removes from markup. *)
Definition markup_char (c : ascii) : bool :=
  Ascii.eqb c "<"%char || Ascii.eqb c ">"%char || Ascii.eqb c "034"%char || Ascii.eqb c "039"%char.

(** [heading_classes.get(level, "subsection-heading")]. *)
Definition heading_class (level : option nat) : string :=
  match level with
  | Some 1 => "chapter-title"
  | Some 2 => "section-heading"
  | Some 3 => "subsection-title"
  | Some 4 => "subsection-heading"
  | _ => "subsection-heading"
  end.

(** The f-string rendering of [level], an int or [None]. *)
Definition level_str (level : option nat) : string :=
  match level with Some n => pretty n | None => "None" end.

Definition quote : string := String "034"%char EmptyString.
Definition indent : string := "            ".

(** The line appended to [html_parts] for one element. *)
Definition render_element (e : element) : string :=
  match e with
  | Heading level t =>
      let tag := "h" +:+ level_str level in
      indent +:+ "<" +:+ tag +:+ " class=" +:+ quote +:+ heading_class level +:+ quote +:+ ">"
        +:+ escape t +:+ "</" +:+ tag +:+ ">"
  | Paragraph t it =>
      let class_str := Py.join " " ("paragraph" :: (if it then ["paragraph-italic"] else [])) in
      indent +:+ "<p class=" +:+ quote +:+ class_str +:+ quote +:+ ">" +:+ escape t +:+ "</p>"
  end.

Definition build_html_from_elements (elements : list element) : string :=
  Py.join (String "010"%char EmptyString) (map render_element elements).

(** The levels the classifier gives its headings. *)
Definition good_level (e : element) : Prop :=
  match e with
  | Heading l _ => exists n, l = Some n /\ 1 <= n <= 4
  | Paragraph _ _ => True
  end.

Definition levels_ok (st : state) : Prop :=
  Forall good_level (elements st)
  /\ (current_heading_parts st <> [] ->
      exists n, current_heading_level st = Some n /\ 1 <= n <= 3).

End Semantic.

(* ================================================================== *)
(** ** Size-histogram generator ([generate_chapter_html.py]) *)

Module ChapterHtml.
Import Semantic.

(** [round(x, 1)]: to the nearest tenth, ties to even. *)
Definition round1 (x : Q) : Q :=
  let y := (x * 10)%Q in
  let f := Qfloor y in
  let d := (y - inject_Z f)%Q in
  let r := if Py.Qlt_bool d (1 # 2) then f
           else if Py.Qlt_bool (1 # 2) d then (f + 1)%Z
           else if Z.even f then f else (f + 1)%Z in
  (inject_Z r / 10)%Q.

(** [extract_text_by_page]: the spans of each page (pages already in
    ascending page order) whose text is not blank. *)
Definition extract_text_by_page (pages : list (list span)) : list (list span) :=
  map (List.filter (fun sp => negb (String.eqb (Py.strip (text sp)) EmptyString))) pages.

(** [font_sizes[size] += 1] on a [defaultdict(int)] (insertion order). *)
Fixpoint hist_add (k : Q) (h : list (Q * nat)) : list (Q * nat) :=
  match h with
  | [] => [(k, 1)]
  | (k', c) :: h' => if Qeq_bool k k' then (k', S c) :: h' else (k', c) :: hist_add k h'
  end.

(** [sorted(..., key=count, reverse=True)]: stable, by descending count. *)
Fixpoint insert_desc (x : Q * nat) (l : list (Q * nat)) : list (Q * nat) :=
  match l with
  | [] => [x]
  | y :: l' => if snd y <? snd x then x :: y :: l' else y :: insert_desc x l'
  end.

Definition sort_desc (l : list (Q * nat)) : list (Q * nat) :=
  fold_left (fun acc x => insert_desc x acc) l [].

Definition analyze_structure (pages_text : list (list span)) : list (Q * nat) :=
  sort_desc (fold_left (fun h sp => hist_add (round1 (size sp)) h)
                       (concat pages_text) []).

(** [format_text_spans]. *)
Definition format_text_spans (t : string) (b i : bool) : string :=
  let t := if b then "<strong>" +:+ t +:+ "</strong>" else t in
  if i then "<em>" +:+ t +:+ "</em>" else t.

(** [process_text_block]; [None] stands for the [IndexError] of
    [font_sizes[0]] on an empty histogram.  The [replace('> <', '> <')]
    of the source is the identity and is left out. *)
Definition process_text_block (spans : list span) (font_size : Q)
    (font_sizes : list (Q * nat)) : option (list string) :=
  match font_sizes with
  | [] => None
  | (s0, _) :: rest =>
      let texts := List.filter (fun t => negb (String.eqb t EmptyString))
                     (map (fun sp => Py.strip (text sp)) spans) in
      if Qle_bool (s0 - 2) font_size then
        Some ["<h2>" +:+ Py.join " " texts +:+ "</h2>"]
      else if Qle_bool (match rest with [] => 12 | (s1, _) :: _ => s1 - 2 end) font_size then
        Some ["<h3>" +:+ Py.join " " texts +:+ "</h3>"]
      else
        let content := map (fun sp => format_text_spans (Py.strip (text sp)) (bold sp) (italic sp))
                         (List.filter (fun sp => negb (String.eqb (Py.strip (text sp)) EmptyString)) spans) in
        match content with
        | [] => Some []
        | _ => Some ["<p>" +:+ Py.join " " content +:+ "</p>"]
        end
  end.

(** The grouping loop of [generate_html_from_pages]: the lines so far
    (or the error), [current_block] and [current_size]. *)
Definition gen_step (font_sizes : list (Q * nat))
    (acc : option (list string) * list span * option Q) (sp : span)
    : option (list string) * list span * option Q :=
  let '(lines, block, cur) := acc in
  if String.eqb (Py.strip (text sp)) EmptyString then acc else
  match cur with
  | Some cs =>
      if Py.Qlt_bool 3 (Qabs (size sp - cs)) then
        let lines' := match block with
                      | [] => lines
                      | _ => match lines, process_text_block block cs font_sizes with
                             | Some ls, Some new => Some (ls ++ new)
                             | _, _ => None
                             end
                      end in
        (lines', [sp], Some (size sp))
      else (lines, block ++ [sp], cur)
  | None => (lines, block ++ [sp], Some (size sp))
  end.

(** [generate_html_from_pages], returning the list [html_lines] that the
    source joins with newlines. *)
Definition generate_html_from_pages (pages_text : list (list span)) : option (list string) :=
  let font_sizes := analyze_structure pages_text in
  let all_text := concat pages_text in
  let '(lines, block, cur) := fold_left (gen_step font_sizes) all_text (Some [], [], None) in
  match block, cur with
  | [], _ => lines
  | _, Some cs => match lines, process_text_block block cs font_sizes with
                  | Some ls, Some new => Some (ls ++ new)
                  | _, _ => None
                  end
  | _, None => lines
  end.

End ChapterHtml.

(* ================================================================== *)
(** ** Duplication detector ([verify_deduplication.py]) *)

Module Dedup.

(** A content block of [ContentExtractor]: [{'type': ..., 'content': ...}]. *)
Record block := mk_block { btype : string; content : string }.

(** A duplicate entry: [content] (first 100 characters), [type],
    [positions], [count]. *)
Record dup := mk_dup {
  d_content : string;
  d_type : string;
  d_positions : list nat;
  d_count : nat
}.

(** [' '.join(block['content'].split())]. *)
Definition normalize (b : block) : string := Py.join " " (Py.split (content b)).

(** [[block_idx for block_idx, cb in enumerate(content_blocks)
      if ' '.join(cb['content'].split()) == normalized]], from index [k]. *)
Fixpoint positions_from (k : nat) (bs : list block) (n : string) : list nat :=
  match bs with
  | [] => []
  | b :: bs' =>
      if String.eqb (normalize b) n then k :: positions_from (S k) bs' n
      else positions_from (S k) bs' n
  end.

Definition positions (all : list block) (n : string) : list nat := positions_from 0 all n.

(** The loop [for i, block in enumerate(content_blocks)]; [seen] is the
    [defaultdict(list)] [seen_content]. *)
Fixpoint scan (all : list block) (i : nat) (bs : list block)
    (seen : gmap string (list nat)) (dups : list dup) : list dup :=
  match bs with
  | [] => dups
  | b :: bs' =>
      let n := normalize b in
      if 50 <? String.length n then
        let dups' := match seen !! n with
                     | Some l => dups ++ [mk_dup (substring 0 100 n) (btype b)
                                                 (positions all n) (length l + 1)]
                     | None => dups
                     end in
        scan all (S i) bs' (<[n := default [] (seen !! n) ++ [i]]> seen) dups'
      else scan all (S i) bs' seen dups
  end.

(** [unique_duplicates]: the first entry for each [tuple(positions)], in
    insertion order. *)
Definition unique_step (acc : list dup) (d : dup) : list dup :=
  if existsb (fun d' => bool_decide (d_positions d' = d_positions d)) acc
  then acc else acc ++ [d].

Definition find_duplicates (content_blocks : list block) : list dup :=
  fold_left unique_step (scan content_blocks 0 content_blocks ∅ []) [].

(** [re.findall(r'<div class="chapter-header">.*?</div>', html, re.DOTALL)]:
    the number of non-overlapping matches, scanning left to right. *)
Definition dquote : string := String "034"%char EmptyString.
Definition header_open : string :=
  "<div class=" +:+ dquote +:+ "chapter-header" +:+ dquote +:+ ">".
Definition div_close : string := "</div>".

Fixpoint after_close (s : string) : option string :=
  match s with
  | EmptyString => None
  | String _ s' =>
      if String.prefix div_close s
      then Some (substring (String.length div_close) (String.length s) s)
      else after_close s'
  end.

Fixpoint count_headers (fuel : nat) (s : string) : nat :=
  match fuel with
  | 0 => 0
  | S fuel' =>
      match s with
      | EmptyString => 0
      | String _ s' =>
          if String.prefix header_open s then
            match after_close (substring (String.length header_open) (String.length s) s) with
            | Some rest => S (count_headers fuel' rest)
            | None => count_headers fuel' s'
            end
          else count_headers fuel' s'
      end
  end.

Definition check_duplicate_headers (html : string) : nat :=
  count_headers (S (String.length html)) html.

(** [verify_chapter] once the file is read: [html] is its text and
    [content_blocks] the result of [extract_html_content] on it.  The
    result is the returned boolean. *)
Definition verify_chapter (html : string) (content_blocks : list block) : bool :=
  let header_count := check_duplicate_headers html in
  if 1 <? header_count then false
  else match content_blocks with
       | [] => true
       | _ => match find_duplicates content_blocks with
              | [] => true
              | _ => false
              end
       end.

(** Vocabulary of the properties below. *)

Definition long (n : string) : bool := 50 <? String.length n.

(** What [seen_content] records after the blocks [pre]. *)
Definition seen_inv (pre : list block) (seen : gmap string (list nat)) : Prop :=
  (forall n, is_Some (seen !! n) <-> exists b, b ∈ pre /\ normalize b = n /\ long n = true)
  /\ (forall n l, seen !! n = Some l -> l <> []).

End Dedup.

(* ================================================================== *)
(** ** Text-content verifier ([verify_text_content.py]) *)

Module TextContent.

(** [\d] on ASCII. *)
Definition is_digit (c : ascii) : bool :=
  let n := nat_of_ascii c in (48 <=? n) && (n <=? 57).

Fixpoint drop_while (p : ascii -> bool) (s : string) : string :=
  match s with
  | EmptyString => EmptyString
  | String c s' => if p c then drop_while p s' else s
  end.

(** Regular-expression pieces, each returning the rest of the input after
    its match.  [X+] and [X*] take the longest run: in the patterns below
    each class is followed by a character outside it, so backtracking into
    a shorter run never finds another match. *)
Definition plus (p : ascii -> bool) (s : string) : option string :=
  match s with
  | String c s' => if p c then Some (drop_while p s') else None
  | EmptyString => None
  end.

Definition star (p : ascii -> bool) (s : string) : option string := Some (drop_while p s).

Definition lit (w s : string) : option string :=
  if String.prefix w s
  then Some (substring (String.length w) (String.length s - String.length w) s)
  else None.

(** [$] without MULTILINE: the end, or a newline that ends the input. *)
Definition eol (s : string) : bool :=
  match s with
  | EmptyString => true
  | String c EmptyString => Ascii.eqb c "010"%char
  | _ => false
  end.

Definition ends (r : option string) : bool :=
  match r with Some r' => eol r' | None => false end.

(** A concatenation of pieces, matched one after the other. *)
Definition seq_match (pieces : list (string -> option string)) (s : string) : option string :=
  fold_left (fun r f => match r with Some x => f x | None => None end) pieces (Some s).

(** [^\d+\s+principles\s+of\s+real\s+estate\s+practice\s+in\s+alabama$]. *)
Definition pat_running_footer (t : string) : bool :=
  ends (seq_match [plus is_digit; plus Py.is_ws; lit "principles"; plus Py.is_ws;
                   lit "of"; plus Py.is_ws; lit "real"; plus Py.is_ws;
                   lit "estate"; plus Py.is_ws; lit "practice"; plus Py.is_ws;
                   lit "in"; plus Py.is_ws; lit "alabama"] t).

(** [^chapter\s+\d+\s*:] (a prefix match). *)
Definition pat_chapter_header (t : string) : bool :=
  bool_decide (is_Some (seq_match [lit "chapter"; plus Py.is_ws; plus is_digit;
                                   star Py.is_ws; lit ":"] t)).

(** [^\d+$]. *)
Definition pat_page_number (t : string) : bool := ends (plus is_digit t).

(** [^(business|chapter|real estate|principles)\s+\d+$]: some alternative
    leads to a match. *)
Definition pat_labelled_number (t : string) : bool :=
  existsb (fun w => ends (seq_match [lit w; plus Py.is_ws; plus is_digit] t))
          ["business"; "chapter"; "real estate"; "principles"].

Definition is_header_footer_text (text : string) : bool :=
  let text_lower := Py.strip (Py.lower text) in
  pat_running_footer text_lower || pat_chapter_header text_lower
  || pat_page_number text_lower || pat_labelled_number text_lower.

(** [extract_text_from_json(json_path, page_num)] with a page number, on
    the loaded JSON (as in [PageDiff.extract_text_from_json]): the joined
    text and [text_span_count]. *)
Definition kept_chunks (page_data : option (list (option string))) : list string :=
  List.filter (fun t => negb (String.eqb t EmptyString) && negb (is_header_footer_text t))
              (map (fun sp => Py.strip (PageDiff.span_text sp)) (default [] page_data)).

Definition extract_text_from_json
    (data : option (gmap string (option (list (option string))))) (page_num : Z)
  : string * nat :=
  let pages := default ∅ data in
  match pages !! pretty page_num with
  | Some page_data => (Py.join " " (kept_chunks page_data), length (kept_chunks page_data))
  | None => (Py.join " " [], 0)
  end.

(** The exit code of [main]: the coverage is the formula of
    [PageDiff.coverage]; 0 passes, 1 warns, 2 fails. *)
Definition exit_code (coverage : Q) : nat :=
  if Qle_bool 94 coverage then 0
  else if Qle_bool 85 coverage then 1
  else 2.

End TextContent.

(* ================================================================== *)
(** ** Validation state manager ([validation_state_manager.py]) *)

(** The JSON state of one page, as [ValidationStateManager.state] holds
    it.  Status and stage are the strings the source stores; timestamps
    ([created_at], [updated_at], [passed_at], ...) and the file writes of
    [_save_state] are left out. *)
Module StateManager.

Record attempt := mk_attempt {
  a_stage : string;
  a_attempt_number : nat;
  a_status : string;
  a_scores : list (string * option Q);
  a_issues : list string
}.

Record vstate := mk_vstate {
  status : string;
  stage : option string;
  attempts : list attempt;
  last_result : option attempt;
  retry_count : nat;
  max_retries : nat;
  validation_scores : gmap string (option Q);
  failure_reason : option string;
  block_reason : option string
}.

(** [_load_state] when no state file exists. *)
Definition new_state : vstate :=
  mk_vstate "new" None [] None 0 3
    (<["text_coverage" := None]> (<["html_structure" := None]>
       (<["visual_similarity" := None]> ∅)))
    None None.

Definition get_retry_count (st : vstate) : nat := retry_count st.
Definition get_max_retries (st : vstate) : nat := max_retries st.

Definition can_retry (st : vstate) : bool := get_retry_count st <? get_max_retries st.

Definition increment_retry (st : vstate) : vstate :=
  mk_vstate (status st) (stage st) (attempts st) (last_result st)
    (S (get_retry_count st)) (max_retries st) (validation_scores st)
    (failure_reason st) (block_reason st).

(** [for key, value in scores.items(): if value is not None: ...]. *)
Definition update_scores (vs : gmap string (option Q)) (scores : list (string * option Q))
  : gmap string (option Q) :=
  fold_left (fun acc kv => match snd kv with
                           | Some v => <[fst kv := Some v]> acc
                           | None => acc
                           end) scores vs.

Definition record_attempt (st : vstate) (stage' status' : string)
    (scores : list (string * option Q)) (issues : list string) : vstate :=
  let a := mk_attempt stage' (get_retry_count st) status' scores issues in
  mk_vstate (status st) (Some stage') (attempts st ++ [a]) (Some a)
    (retry_count st) (max_retries st) (update_scores (validation_scores st) scores)
    (failure_reason st) (block_reason st).

Definition mark_passed (st : vstate) (stage' : string) : vstate :=
  mk_vstate "passed" (Some stage') (attempts st) (last_result st)
    (retry_count st) (max_retries st) (validation_scores st)
    (failure_reason st) (block_reason st).

Definition mark_failed (st : vstate) (stage' reason : string) : vstate :=
  mk_vstate "failed" (Some stage') (attempts st) (last_result st)
    (retry_count st) (max_retries st) (validation_scores st)
    (Some reason) (block_reason st).

Definition mark_blocked (st : vstate) (stage' reason : string) : vstate :=
  mk_vstate "blocked" (Some stage') (attempts st) (last_result st)
    (retry_count st) (max_retries st) (validation_scores st)
    (failure_reason st) (Some reason).

Definition get_status (st : vstate) : string := status st.

(** [get_last_attempt]: [attempts[-1] if attempts else None]. *)
Definition get_last_attempt (st : vstate) : option attempt :=
  match rev (attempts st) with [] => None | a :: _ => Some a end.

(** [reset]: the fresh state again (the creation time, not modelled, is
    kept by the source). *)
Definition reset (st : vstate) : vstate := new_state.

(** A call of one of the state-changing methods. *)
Inductive op :=
  | OpRecord (stage' status' : string) (scores : list (string * option Q)) (issues : list string)
  | OpPassed (stage' : string)
  | OpFailed (stage' reason : string)
  | OpBlocked (stage' reason : string)
  | OpIncrement
  | OpReset.

Definition apply_op (st : vstate) (o : op) : vstate :=
  match o with
  | OpRecord stg sts sc iss => record_attempt st stg sts sc iss
  | OpPassed stg => mark_passed st stg
  | OpFailed stg r => mark_failed st stg r
  | OpBlocked stg r => mark_blocked st stg r
  | OpIncrement => increment_retry st
  | OpReset => reset st
  end.

(** The state after a sequence of calls on a manager created without a
    state file. *)
Definition run (ops : list op) : vstate := fold_left apply_op ops new_state.

End StateManager.

(* ================================================================== *)
(** * Properties *)

(* ------------------------------------------------------------------ *)
(** ** Fidelity comparator *)

Section Comparator.
Import PageDiff.

Example split_ex : Py.split "  the quick	 fox " = ["the"; "quick"; "fox"].
Proof. reflexivity. Qed.

Lemma Qlt_bool_iff (a b : Q) : Py.Qlt_bool a b = true <-> (a < b)%Q.
Proof.
  unfold Py.Qlt_bool. rewrite negb_true_iff.
  split; intros H.
  - apply Qnot_le_lt. intros Hle. apply Qle_bool_iff in Hle. congruence.
  - destruct (Qle_bool b a) eqn:E; [|reflexivity].
    apply Qle_bool_iff in E. exfalso. apply (Qlt_not_le a b); assumption.
Qed.

Lemma Qlt_bool_false (a b : Q) : Py.Qlt_bool a b = false <-> (b <= a)%Q.
Proof.
  rewrite <- not_true_iff_false, Qlt_bool_iff. split.
  - apply Qnot_lt_le.
  - intros H Hlt. apply (Qlt_not_le a b); assumption.
Qed.

Lemma Qle_bool_false (a b : Q) : Qle_bool a b = false <-> (b < a)%Q.
Proof.
  rewrite <- not_true_iff_false, Qle_bool_iff. split.
  - apply Qnot_le_lt.
  - intros H Hle. apply (Qlt_not_le b a); assumption.
Qed.

(** C1: for a reference with at least one token, the coverage is the ratio
    of the raw token counts times 100, the missing set is the reference
    word set minus the candidate word set and the extra set the converse;
    on the reference "the quick brown fox jumps" and the candidate
    "the quick brown fox" the coverage is 80, the missing content words
    are exactly {"jumps"} and the verdict is Failed. *)
Theorem diff_coverage_counts_sets (ref cand : string)
  (Hne : (0 < length (tokenize_words ref))%nat) :
  let r := diff ref cand in
  (r_coverage r == inject_Z (Z.of_nat (length (tokenize_words cand)))
                   / inject_Z (Z.of_nat (length (tokenize_words ref))) * 100)%Q
  /\ r_missing r = word_set (tokenize_words ref) ∖ word_set (tokenize_words cand)
  /\ r_extra r = word_set (tokenize_words cand) ∖ word_set (tokenize_words ref)
  /\ (let ex := diff "the quick brown fox jumps" "the quick brown fox" in
      length (tokenize_words "the quick brown fox jumps") = 5%nat
      /\ length (tokenize_words "the quick brown fox") = 4%nat
      /\ (r_coverage ex == 80)%Q
      /\ r_missing_content ex = {["jumps"]}
      /\ r_verdict ex = Failed).
Proof.
  unfold diff, find_missing_and_extra, coverage.
  destruct (categorize _ _) as [critical formatting].
  apply Nat.ltb_lt in Hne. rewrite Hne. simpl.
  split; [reflexivity|]. split; [reflexivity|]. split; [reflexivity|].
  split; [reflexivity|]. split; [reflexivity|].
  split; [reflexivity|]. split; [vm_compute; reflexivity|reflexivity].
Qed.

Lemma diff_coverage_counts_sets_witness :
  (0 < length (tokenize_words "a b"))%nat /\
  (r_coverage (diff "a b" "a") == (1 # 2) * 100)%Q.
Proof.
  split; [vm_compute; lia|].
  exact (proj1 (diff_coverage_counts_sets "a b" "a" ltac:(vm_compute; lia))).
Defined.

(** C2: the verdict of every comparison is [status] of its coverage, a
    fixed ladder of constant thresholds: above 100 Rejected, exactly 100
    Perfect, [99,100) Excellent, [95,99) Acceptable, below 95 Failed. *)
Theorem diff_verdict_thresholds (ref cand : string) :
  let cov := r_coverage (diff ref cand) in
  r_verdict (diff ref cand) = status cov
  /\ (r_verdict (diff ref cand) = Rejected <-> (100 < cov)%Q)
  /\ (r_verdict (diff ref cand) = Perfect <-> (cov == 100)%Q)
  /\ (r_verdict (diff ref cand) = Excellent <-> (99 <= cov /\ cov < 100)%Q)
  /\ (r_verdict (diff ref cand) = Acceptable <-> (95 <= cov /\ cov < 99)%Q)
  /\ (r_verdict (diff ref cand) = Failed <-> (cov < 95)%Q).
Proof.
  assert (Hv : r_verdict (diff ref cand) = status (r_coverage (diff ref cand))).
  { unfold diff, find_missing_and_extra. destruct (categorize _ _). reflexivity. }
  cbv zeta. rewrite Hv. clear Hv.
  generalize (r_coverage (diff ref cand)) as c. intros c.
  unfold status.
  destruct (Py.Qlt_bool 100 c) eqn:E1;
    [apply Qlt_bool_iff in E1 | apply Qlt_bool_false in E1];
  [| destruct (Qle_bool 100 c) eqn:E2;
     [apply Qle_bool_iff in E2 | apply Qle_bool_false in E2];
     [| destruct (Qle_bool 99 c) eqn:E3;
        [apply Qle_bool_iff in E3 | apply Qle_bool_false in E3];
        [| destruct (Qle_bool 95 c) eqn:E4;
           [apply Qle_bool_iff in E4 | apply Qle_bool_false in E4]]]];
  repeat split; intros;
  repeat match goal with H : _ /\ _ |- _ => destruct H end;
  first [reflexivity | discriminate | lra | exfalso; lra].
Qed.

(** C3 (counterexample): with an empty reference and an empty candidate
    the coverage is 0, not 100. *)
Lemma diff_empty_empty_not_vacuous :
  (r_coverage (diff EmptyString EmptyString) == 0)%Q /\ ~ (r_coverage (diff EmptyString EmptyString) == 100)%Q
  /\ r_verdict (diff EmptyString EmptyString) = Failed.
Proof. vm_compute. split; [reflexivity|]. split; [discriminate|reflexivity]. Qed.

(** C3 (amended): when the reference has no token the coverage is the
    constant 0, whatever the candidate (no division happens), and the
    verdict is Failed. *)
Theorem diff_empty_reference (ref cand : string)
  (Hempty : length (tokenize_words ref) = 0%nat) :
  r_coverage (diff ref cand) = 0%Q /\ r_verdict (diff ref cand) = Failed.
Proof.
  unfold diff, find_missing_and_extra, coverage. rewrite Hempty.
  destruct (categorize _ _). split; reflexivity.
Qed.

Lemma diff_empty_reference_witness :
  length (tokenize_words " 	") = 0%nat /\
  r_coverage (diff " 	" "some words") = 0%Q.
Proof.
  split; [reflexivity|].
  exact (proj1 (diff_empty_reference " 	" "some words" eq_refl)).
Defined.

(** C10: a candidate that repeats one reference word in place of another
    reaches coverage exactly 100 and the verdict Perfect while the missing
    set is not empty. *)
Theorem diff_perfect_with_missing :
  let r := diff "a b" "a a" in
  (r_coverage r == 100)%Q /\ r_verdict r = Perfect
  /\ r_missing r = {["b"]} /\ r_missing r ≠ ∅.
Proof.
  split; [reflexivity|]. split; [reflexivity|].
  assert (H : r_missing (diff "a b" "a a") = {["b"]}) by (vm_compute; reflexivity).
  split; [exact H|]. rewrite H. apply non_empty_singleton_L.
Qed.

End Comparator.

(* ------------------------------------------------------------------ *)
(** ** Whitespace tokenisation *)

Section Tokens.
Import Py.

Lemma split_aux_app_space (b : string) :
  forall (a cur : string),
  split_aux cur (String.append a (String " " b)) = split_aux cur a ++ split b.
Proof.
  induction a as [|c a IH]; intros cur; simpl.
  - reflexivity.
  - destruct (is_ws c).
    + rewrite IH, app_assoc. reflexivity.
    + apply IH.
Qed.

Lemma split_join (xs : list string) :
  split (join " " xs) = concat (map split xs).
Proof.
  induction xs as [|x xs IH]; [reflexivity|].
  destruct xs as [|y ys].
  - simpl. rewrite app_nil_r. reflexivity.
  - change (join " " (x :: y :: ys))
      with (String.append x (String " " (join " " (y :: ys)))).
    unfold split at 1. rewrite split_aux_app_space. fold (split x).
    rewrite IH. reflexivity.
Qed.

Lemma split_lstrip (s : string) : split (lstrip s) = split s.
Proof.
  induction s as [|c s IH]; [reflexivity|].
  simpl. destruct (is_ws c) eqn:E; [|reflexivity].
  rewrite IH. unfold split. simpl. rewrite E. reflexivity.
Qed.

Lemma split_aux_rstrip (s : string) :
  forall cur, split_aux cur (rstrip s) = split_aux cur s.
Proof.
  induction s as [|c s IH]; intros cur; [reflexivity|].
  simpl. destruct (rstrip s) as [|x y] eqn:R.
  - destruct (is_ws c) eqn:E; simpl.
    + rewrite <- IH. simpl. rewrite app_nil_r. reflexivity.
    + rewrite E. rewrite <- IH. reflexivity.
  - change (split_aux cur (String c (String x y)) = split_aux cur (String c s)).
    rewrite <- R in IH |- *. simpl. destruct (is_ws c); rewrite IH; reflexivity.
Qed.

Lemma split_strip (s : string) : split (strip s) = split s.
Proof.
  unfold strip, split. rewrite split_aux_rstrip. apply split_lstrip.
Qed.

End Tokens.

(* ------------------------------------------------------------------ *)
(** ** Structure classifier *)

Section Classifier.
Import Semantic.

Lemma elems_tokens_app (a b : list element) :
  elems_tokens (a ++ b) = elems_tokens a ++ elems_tokens b.
Proof. unfold elems_tokens. rewrite map_app, concat_app. reflexivity. Qed.

Lemma elems_tokens_heading_of (st : state) :
  elems_tokens [heading_of st] = concat (map Py.split (current_heading_parts st)).
Proof. unfold elems_tokens. simpl. rewrite app_nil_r. apply split_join. Qed.

Lemma elems_tokens_flush_group (g : list gspan) :
  elems_tokens (option_list (flush_group g)) = concat (map Py.split (map g_text g)).
Proof.
  destruct g as [|x g]; [reflexivity|].
  unfold elems_tokens, flush_group, option_list.
  transitivity (Py.split (Py.join " " (map g_text (x :: g))));
    [cbn [map concat elem_text option_rect]; apply app_nil_r | apply split_join].
Qed.

Lemma is_noise_short (t : string) : is_noise t = (String.length t <? 2).
Proof.
  unfold is_noise. destruct (String.length t <? 2) eqn:E; [reflexivity|].
  simpl. apply bool_decide_eq_false. intros Hin.
  apply list_elem_of_singleton in Hin. subst t. discriminate.
Qed.

Ltac tokens_simpl :=
  unfold state_tokens; cbn [elements current_group current_heading_parts
                            current_heading_level];
  rewrite ?elems_tokens_app, ?elems_tokens_heading_of,
          ?elems_tokens_flush_group, ?map_app, ?concat_app;
  cbn [map concat elems_tokens elem_text heading_of];
  rewrite ?app_nil_r.

Lemma step_tokens (st : state) (sp : span) :
  state_tokens (step st sp)
  ≡ₚ state_tokens st ++ (if kept sp then Py.split (Py.strip (text sp)) else []).
Proof.
  unfold kept, step.
  destruct (String.eqb (Py.strip (text sp)) EmptyString) eqn:Eempty.
  { apply String.eqb_eq in Eempty. rewrite Eempty. simpl. by rewrite app_nil_r. }
  destruct (is_noise (Py.strip (text sp))) eqn:Enoise.
  { simpl. by rewrite app_nil_r. }
  simpl negb. cbv iota.
  destruct st as [els grp parts lvl0]; cbn [current_heading_level current_group
    current_heading_parts elements].
  destruct (is_heading_candidate _ _ _).
  - set (t := Py.strip (text sp)).
    set (l := heading_level _ _ _).
    destruct lvl0 as [l0|]; [destruct (negb (l0 =? l))|];
    destruct grp as [|g grp]; destruct parts as [|p parts];
    destruct (l <=? 3); unfold heading_of; tokens_simpl;
    unfold elems_tokens; cbn -[Py.join Py.split]; rewrite ?split_join, ?app_nil_r;
    fold (elems_tokens els); solve_Permutation.
  - destruct parts as [|p parts]; unfold heading_of; tokens_simpl;
    unfold elems_tokens; cbn -[Py.join Py.split]; rewrite ?split_join, ?app_nil_r;
    fold (elems_tokens els); solve_Permutation.
Qed.

Lemma fold_step_tokens (spans : list span) :
  forall st, state_tokens (fold_left step spans st)
  ≡ₚ state_tokens st ++ concat (map (fun sp => Py.split (text sp)) (List.filter kept spans)).
Proof.
  induction spans as [|sp spans IH]; intros st; simpl.
  - by rewrite app_nil_r.
  - rewrite IH, step_tokens.
    destruct (kept sp); simpl; rewrite ?split_strip, ?app_nil_r, ?app_assoc; reflexivity.
Qed.

Lemma finish_tokens (st : state) : elems_tokens (finish st) ≡ₚ state_tokens st.
Proof.
  destruct st as [els grp parts lvl]; unfold finish, state_tokens.
  cbn [elements current_group current_heading_parts current_heading_level].
  destruct grp as [|g grp]; destruct parts as [|p parts];
  rewrite ?elems_tokens_app, ?elems_tokens_heading_of, ?elems_tokens_flush_group;
  cbn [current_heading_parts map concat]; rewrite ?app_nil_r;
  try reflexivity; solve_Permutation.
Qed.

(** C4 (amended): the tokens of the element texts are a permutation of
    the tokens of the input spans that survive the noise filter, and that
    filter drops exactly the spans whose stripped text is shorter than two
    characters, whatever those characters are. *)
Theorem group_tokens_preserved (text_spans : list span) :
  elems_tokens (group_text_spans_into_elements text_spans)
  ≡ₚ concat (map (fun sp => Py.split (text sp)) (List.filter kept text_spans))
  /\ (forall sp, kept sp = negb (String.length (Py.strip (text sp)) <? 2)).
Proof.
  split.
  - destruct text_spans as [|sp spans]; [reflexivity|].
    unfold group_text_spans_into_elements.
    rewrite finish_tokens, fold_step_tokens. reflexivity.
  - intros sp. unfold kept. rewrite is_noise_short. reflexivity.
Qed.

(** C4 (counterexample): the one-letter word "I" is dropped as noise
    although it is neither a decorative glyph nor a list marker. *)
Lemma group_drops_single_letter_word :
  let spans := [mk_span "I" 11 false false; mk_span "am here" 11 false false] in
  group_text_spans_into_elements spans = [Paragraph "am here" false]
  /\ concat (map (fun sp => Py.split (text sp)) spans) = ["I"; "am"; "here"]
  /\ elems_tokens (group_text_spans_into_elements spans) = ["am"; "here"].
Proof. vm_compute. repeat split. Qed.

Ltac heading_seen_solve :=
  unfold heading_seen, heading_of in *;
  cbn [elements current_group current_heading_parts current_heading_level] in *;
  rewrite ?existsb_app in *; cbn [existsb is_heading option_list flush_group] in *;
  rewrite ?orb_false_r, ?orb_true_r in *;
  repeat match goal with
         | H : context [existsb is_heading ?l] |- _ =>
             destruct (existsb is_heading l); cbn in H
         | |- context [existsb is_heading ?l] => destruct (existsb is_heading l)
         end;
  cbn in *; rewrite ?orb_true_r, ?app_nil_r in *; try reflexivity;
  try discriminate;
  try (destruct (_ ++ _) eqn:Eapp; [apply app_eq_nil in Eapp as [_ Eapp]; discriminate|reflexivity]).

Lemma step_heading_seen (st : state) (sp : span) :
  heading_seen st || heading_span sp = true -> heading_seen (step st sp) = true.
Proof.
  unfold heading_span, kept, step. intros H.
  destruct (String.eqb (Py.strip (text sp)) EmptyString) eqn:Eempty.
  { apply String.eqb_eq in Eempty. rewrite Eempty in H. simpl in H.
    rewrite orb_false_r in H. exact H. }
  destruct (is_noise (Py.strip (text sp))) eqn:Enoise.
  { simpl in H. rewrite orb_false_r in H. exact H. }
  simpl negb in H. cbv iota. rewrite andb_true_l in H.
  destruct st as [els grp parts lvl0].
  destruct (is_heading_candidate _ _ _).
  - set (l := heading_level _ _ _).
    destruct lvl0 as [l0|]; [destruct (negb (l0 =? l))|];
    destruct grp as [|g grp]; destruct parts as [|p parts];
    destruct (l <=? 3); heading_seen_solve.
  - rewrite orb_false_r in H.
    destruct parts as [|p parts]; heading_seen_solve.
Qed.

Lemma fold_heading_seen (spans : list span) :
  forall st, heading_seen st || existsb heading_span spans = true ->
  heading_seen (fold_left step spans st) = true.
Proof.
  induction spans as [|sp spans IH]; intros st H; simpl in *.
  - rewrite orb_false_r in H. exact H.
  - apply IH. rewrite orb_assoc in H. apply orb_true_iff in H as [H|H].
    + rewrite (step_heading_seen st sp H). reflexivity.
    + rewrite H. apply orb_true_r.
Qed.

Lemma finish_heading (st : state) :
  heading_seen st = true -> existsb is_heading (finish st) = true.
Proof.
  destruct st as [els grp parts lvl]. unfold finish.
  destruct grp as [|g grp]; destruct parts as [|p parts]; heading_seen_solve.
Qed.

End Classifier.

(* ------------------------------------------------------------------ *)
(** ** Size-histogram generator *)

Section SizeHistogram.
Import Semantic ChapterHtml.

Lemma round1_upper (x : Q) : (round1 x <= x + (1 # 10))%Q.
Proof.
  unfold round1.
  set (y := (x * 10)%Q). set (f := Qfloor y).
  assert (Hf : (inject_Z f <= y)%Q) by apply Qfloor_le.
  assert (Hr : forall r : Z, (r <= f + 1)%Z -> (inject_Z r / 10 <= x + (1 # 10))%Q).
  { intros r Hrle. apply Qle_shift_div_r; [reflexivity|].
    assert (Hz : (inject_Z r <= inject_Z (f + 1))%Q) by (rewrite <- Zle_Qle; exact Hrle).
    rewrite inject_Z_plus in Hz. change (inject_Z 1) with 1%Q in Hz. unfold y in Hf. lra. }
  apply Hr.
  destruct (Py.Qlt_bool _ _); [lia|].
  destruct (Py.Qlt_bool _ _); [lia|].
  destruct (Z.even f); lia.
Qed.

Lemma hist_add_single (k : Q) (n : nat) : hist_add k [(k, n)] = [(k, S n)].
Proof. simpl. rewrite Qeq_bool_refl. reflexivity. Qed.

Lemma fold_hist_single (l : list span) (s : Q) :
  Forall (fun sp => size sp = s) l ->
  forall n, fold_left (fun h sp => hist_add (round1 (size sp)) h) l [(round1 s, n)]
            = [(round1 s, n + length l)].
Proof.
  induction 1 as [|sp l Hsp Hl IH]; intros n; cbn [fold_left length].
  - rewrite Nat.add_0_r. reflexivity.
  - rewrite Hsp, hist_add_single, IH, Nat.add_succ_r. reflexivity.
Qed.

Lemma Qabs_self_minus (s : Q) : Py.Qlt_bool 3 (Qabs (s - s)) = false.
Proof.
  apply negb_false_iff. apply Qle_bool_iff.
  rewrite (Qabs_wd (s - s) 0) by ring. discriminate.
Qed.

Lemma fold_gen_single (fs : list (Q * nat)) (l : list span) (s : Q) :
  Forall (fun sp => size sp = s) l ->
  forall b, fold_left (gen_step fs) l (Some [], b, Some s)
            = (Some [], b ++ List.filter (fun sp => negb (String.eqb (Py.strip (text sp)) EmptyString)) l, Some s).
Proof.
  induction 1 as [|sp l Hsp Hl IH]; intros b; cbn [fold_left List.filter].
  - rewrite app_nil_r. reflexivity.
  - assert (Hg : gen_step fs (Some [], b, Some s) sp
                 = (Some [], if String.eqb (Py.strip (text sp)) EmptyString then b else b ++ [sp],
                    Some s)).
    { unfold gen_step. destruct (String.eqb _ _); [reflexivity|].
      rewrite Hsp, Qabs_self_minus. reflexivity. }
    rewrite Hg, IH.
    destruct (String.eqb _ _); cbn [negb]; rewrite <- ?app_assoc; reflexivity.
Qed.

Lemma extract_filter (pages : list (list span)) :
  concat (extract_text_by_page pages)
  = List.filter (fun sp => negb (String.eqb (Py.strip (text sp)) EmptyString)) (concat pages).
Proof.
  unfold extract_text_by_page. induction pages as [|p ps IH]; [reflexivity|].
  simpl. rewrite IH, List.filter_app. reflexivity.
Qed.

Lemma filter_nonblank_idem (l : list span) :
  let nb := fun sp => negb (String.eqb (Py.strip (text sp)) EmptyString) in
  List.filter nb (List.filter nb l) = List.filter nb l.
Proof.
  intros nb. induction l as [|x l IH]; [reflexivity|].
  simpl. destruct (nb x) eqn:E; simpl; [rewrite E, IH|]; auto.
Qed.

Lemma single_size_h2 (pages : list (list span)) (s : Q)
  (Hsize : Forall (fun sp => size sp = s) (concat pages))
  (Hne : concat (extract_text_by_page pages) <> []) :
  exists t, generate_html_from_pages (extract_text_by_page pages)
            = Some ["<h2>" +:+ t +:+ "</h2>"].
Proof.
  set (nb := fun sp => negb (String.eqb (Py.strip (text sp)) EmptyString)).
  assert (HL : Forall (fun sp => size sp = s /\ nb sp = true)
                      (concat (extract_text_by_page pages))).
  { rewrite extract_filter. apply List.Forall_forall. intros x Hx.
    apply filter_In in Hx as [Hx Hnb]. split; [|exact Hnb].
    rewrite List.Forall_forall in Hsize. apply Hsize, Hx. }
  unfold generate_html_from_pages, analyze_structure.
  destruct (concat (extract_text_by_page pages)) as [|sp0 rest]; [contradiction|].
  inversion HL as [|? ? [Hs0 Hnb0] Hrest]; subst.
  assert (Hrest' : Forall (fun sp => size sp = size sp0) rest).
  { eapply List.Forall_impl; [|exact Hrest]. intros x [Hx _]. exact Hx. }
  cbn [fold_left]. change (hist_add (round1 (size sp0)) []) with [(round1 (size sp0), 1)].
  rewrite (fold_hist_single rest (size sp0) Hrest').
  assert (Hg0 : gen_step [(round1 (size sp0), 1 + length rest)] (Some [], [], None) sp0
                = (Some [], [sp0], Some (size sp0))).
  { unfold gen_step. unfold nb in Hnb0. apply negb_true_iff in Hnb0. rewrite Hnb0.
    reflexivity. }
  cbn [sort_desc fold_left insert_desc]. unfold sort_desc. cbn [fold_left insert_desc].
  rewrite Hg0, (fold_gen_single _ rest (size sp0) Hrest').
  cbn [app]. unfold process_text_block.
  assert (Hle : Qle_bool (round1 (size sp0) - 2) (size sp0) = true).
  { apply Qle_bool_iff. pose proof (round1_upper (size sp0)). lra. }
  rewrite Hle. eexists. reflexivity.
Qed.

End SizeHistogram.

(* ------------------------------------------------------------------ *)
(** ** Units with a single font size *)

Section SingleSize.
Import Semantic ChapterHtml.

(** C9 (counterexample): in a unit whose spans all have one font size
    both classifiers still emit headings, and neither output carries any
    warning: [generate_chapter_html.py] turns two 11pt body spans into an
    h2, [semantic_html_generator.py] turns two 24pt bold spans into a
    level-2 heading. *)
Lemma single_size_headings_example :
  generate_html_from_pages
    (extract_text_by_page [[mk_span "hello" 11 false false; mk_span "world" 11 false false]])
  = Some ["<h2>hello world</h2>"]
  /\ group_text_spans_into_elements
       [mk_span "Overview" 24 true false; mk_span "Plain words" 24 true false]
     = [Heading (Some 2) "Overview Plain words"].
Proof. split; vm_compute; reflexivity. Qed.

(** C9 (amended): neither classifier looks at the number of distinct font
    sizes.  In [semantic_html_generator.py] a heading is emitted as soon as
    one kept span passes the absolute per-span heading test, whatever the
    other sizes are; in [generate_chapter_html.py] a unit whose spans all
    share one size [s] becomes a single h2 line.  No warning is part of
    either output. *)
Theorem single_size_no_flat_fallback :
  (forall text_spans : list span,
     existsb heading_span text_spans = true ->
     existsb is_heading (group_text_spans_into_elements text_spans) = true)
  /\ (forall (pages : list (list span)) (s : Q),
        Forall (fun sp => size sp = s) (concat pages) ->
        concat (extract_text_by_page pages) <> [] ->
        exists t, generate_html_from_pages (extract_text_by_page pages)
                  = Some ["<h2>" +:+ t +:+ "</h2>"]).
Proof.
  split.
  - intros text_spans H.
    destruct text_spans as [|sp spans]; [discriminate|].
    unfold group_text_spans_into_elements.
    apply finish_heading, fold_heading_seen. exact H.
  - intros pages s Hsize Hne. exact (single_size_h2 pages s Hsize Hne).
Qed.

Lemma single_size_no_flat_fallback_witness :
  existsb heading_span [mk_span "Overview" 24 true false] = true
  /\ existsb is_heading (group_text_spans_into_elements [mk_span "Overview" 24 true false]) = true
  /\ (exists t, generate_html_from_pages (extract_text_by_page [[mk_span "hello" 11 false false]])
                = Some ["<h2>" +:+ t +:+ "</h2>"]).
Proof.
  assert (H1 : existsb heading_span [mk_span "Overview" 24 true false] = true)
    by (vm_compute; reflexivity).
  split; [exact H1|]. split.
  - exact (proj1 single_size_no_flat_fallback _ H1).
  - apply (proj2 single_size_no_flat_fallback _ 11%Q).
    + repeat constructor.
    + vm_compute. discriminate.
Defined.

End SingleSize.

(* ------------------------------------------------------------------ *)
(** ** Duplication detector *)

Section Deduplication.
Import Dedup.

Example header_count_ex :
  check_duplicate_headers
    ("a" +:+ header_open +:+ "x</div> b " +:+ header_open +:+ "y</div>") = 2.
Proof. reflexivity. Qed.

(** C5 (counterexample): a consolidated chapter with no chapter-header
    marker at all and no content block passes [verify_chapter]. *)
Lemma verify_chapter_zero_headers_passes :
  check_duplicate_headers "<p>No header here</p>" = 0
  /\ verify_chapter "<p>No header here</p>" [] = true.
Proof. split; reflexivity. Qed.

(** C5 (amended): more than one chapter-header marker makes the chapter
    check fail, before and independently of the duplicate-text rule; with
    zero or one marker the verdict is the duplicate-text rule alone, so a
    missing marker is only a warning. *)
Theorem verify_chapter_header_rule (html : string) (content_blocks : list block) :
  (1 < check_duplicate_headers html -> verify_chapter html content_blocks = false)
  /\ (check_duplicate_headers html <= 1 ->
      verify_chapter html content_blocks
      = match content_blocks with
        | [] => true
        | _ => match find_duplicates content_blocks with [] => true | _ => false end
        end).
Proof.
  unfold verify_chapter. split; intros H.
  - apply Nat.ltb_lt in H. rewrite H. reflexivity.
  - assert (H' : (1 <? check_duplicate_headers html) = false) by (apply Nat.ltb_ge; exact H).
    rewrite H'. reflexivity.
Qed.

Lemma verify_chapter_header_rule_witness :
  let html := header_open +:+ "</div>" +:+ header_open +:+ "</div>" in
  1 < check_duplicate_headers html /\ verify_chapter html [] = false.
Proof.
  intros html.
  assert (Hc : 1 < check_duplicate_headers html) by (vm_compute; lia).
  split; [exact Hc|].
  exact (proj1 (verify_chapter_header_rule html []) Hc).
Defined.

Lemma seen_inv_nil : seen_inv [] ∅.
Proof.
  split.
  - intros n. rewrite lookup_empty. split; [intros [? H]; discriminate|].
    intros (b & Hb & _). apply not_elem_of_nil in Hb. contradiction.
  - intros n l H. rewrite lookup_empty in H. discriminate.
Qed.

Lemma seen_inv_step (pre : list block) (seen : gmap string (list nat)) (b : block) (i : nat) :
  seen_inv pre seen ->
  seen_inv (pre ++ [b])
    (if long (normalize b)
     then <[normalize b := default [] (seen !! normalize b) ++ [i]]> seen else seen).
Proof.
  intros [Hs Hne]. split.
  - intros n. destruct (long (normalize b)) eqn:Hl.
    + destruct (decide (n = normalize b)) as [->|Hn].
      * rewrite lookup_insert_eq. split; [|intros; eexists; reflexivity].
        intros _. exists b. rewrite elem_of_app, list_elem_of_singleton. auto.
      * rewrite lookup_insert_ne by congruence. rewrite Hs.
        split; intros (b' & Hb' & Hn' & Hl').
        -- exists b'. rewrite elem_of_app. auto.
        -- exists b'. rewrite elem_of_app, list_elem_of_singleton in Hb'.
           destruct Hb' as [Hb' | ->]; [auto|congruence].
    + rewrite Hs. split; intros (b' & Hb' & Hn' & Hl').
      * exists b'. rewrite elem_of_app. auto.
      * exists b'. rewrite elem_of_app, list_elem_of_singleton in Hb'.
        destruct Hb' as [Hb' | ->]; [auto|congruence].
  - intros n l. destruct (long (normalize b)).
    + destruct (decide (n = normalize b)) as [->|Hn].
      * rewrite lookup_insert_eq. intros [= <-]. destruct (default _ _); discriminate.
      * rewrite lookup_insert_ne by congruence. apply Hne.
    + apply Hne.
Qed.

Lemma scan_step (all : list block) (i : nat) (b : block) (bs : list block)
    (seen : gmap string (list nat)) (dups : list dup) :
  scan all i (b :: bs) seen dups
  = scan all (S i) bs
      (if long (normalize b)
       then <[normalize b := default [] (seen !! normalize b) ++ [i]]> seen else seen)
      (if long (normalize b)
       then match seen !! normalize b with
            | Some l => dups ++ [mk_dup (substring 0 100 (normalize b)) (btype b)
                                        (positions all (normalize b)) (length l + 1)]
            | None => dups
            end
       else dups).
Proof. simpl. unfold long. destruct (50 <? _); reflexivity. Qed.

Lemma scan_keeps (all bs : list block) :
  forall i seen dups d, d ∈ dups -> d ∈ scan all i bs seen dups.
Proof.
  induction bs as [|b bs IH]; intros i seen dups d Hd; [exact Hd|].
  rewrite scan_step. apply IH.
  destruct (long _); [|exact Hd]. destruct (seen !! _); [|exact Hd].
  rewrite elem_of_app. auto.
Qed.

(** Every entry the scan adds has an occurrence count of at least 2. *)
Lemma scan_count (all bs : list block) :
  forall pre i seen dups, seen_inv pre seen ->
  forall d, d ∈ scan all i bs seen dups -> d ∈ dups \/ 2 <= d_count d.
Proof.
  induction bs as [|b bs IH]; intros pre i seen dups Hinv d Hd; [auto|].
  rewrite scan_step in Hd.
  destruct (IH _ _ _ _ (seen_inv_step pre seen b i Hinv) d Hd) as [H|H]; [|auto].
  destruct (long _); [|auto]. destruct (seen !! normalize b) as [l|] eqn:E; [|auto].
  rewrite elem_of_app, list_elem_of_singleton in H. destruct H as [H | ->]; [auto|].
  right. simpl. destruct Hinv as [_ Hne]. specialize (Hne _ _ E).
  destruct l; [contradiction|simpl; lia].
Qed.

(** With pairwise distinct normalized texts the scan adds nothing. *)
Lemma scan_nodup (all bs : list block) :
  forall pre i seen dups, seen_inv pre seen ->
  NoDup (map normalize (pre ++ bs)) -> scan all i bs seen dups = dups.
Proof.
  induction bs as [|b bs IH]; intros pre i seen dups Hinv Hnd; [reflexivity|].
  rewrite scan_step.
  assert (Hnone : seen !! normalize b = None).
  { destruct (seen !! normalize b) eqn:E; [|reflexivity]. exfalso.
    destruct Hinv as [Hs _]. destruct (proj1 (Hs (normalize b)) ltac:(eexists; exact E))
      as (b' & Hb' & Hn & _).
    rewrite map_app in Hnd. apply NoDup_app in Hnd as (_ & Hdis & _).
    apply (Hdis (normalize b)).
    - apply list_elem_of_fmap. exists b'. auto.
    - simpl. apply list_elem_of_here. }
  set (seen' := if long (normalize b)
                then <[normalize b := default [] (seen !! normalize b) ++ [i]]> seen
                else seen).
  assert (Hinv' : seen_inv (pre ++ [b]) seen') by (apply seen_inv_step; exact Hinv).
  rewrite Hnone. rewrite (IH (pre ++ [b]) _ seen' _ Hinv').
  - destruct (long _); reflexivity.
  - rewrite <- app_assoc. exact Hnd.
Qed.

(** The scan reports a block whose text already occurred earlier. *)
Lemma scan_detects (all bs : list block) :
  forall pre i seen dups, seen_inv pre seen ->
  forall k b, bs !! k = Some b -> long (normalize b) = true ->
  (exists b', b' ∈ pre ++ take k bs /\ normalize b' = normalize b) ->
  exists d, d ∈ scan all i bs seen dups /\ d_positions d = positions all (normalize b).
Proof.
  induction bs as [|b0 bs IH]; intros pre i seen dups Hinv k b Hk Hl Hex;
    [discriminate|].
  rewrite scan_step.
  destruct k as [|k].
  - injection Hk as <-. rewrite Hl.
    destruct Hinv as [Hs Hne].
    destruct (proj2 (Hs (normalize b0))) as [l Hlk].
    { destruct Hex as (b' & Hb' & Hn). rewrite app_nil_r in Hb'.
      exists b'. rewrite Hn. auto. }
    rewrite Hlk. eexists. split; [apply scan_keeps|].
    + rewrite elem_of_app, list_elem_of_singleton. right. reflexivity.
    + reflexivity.
  - apply (IH (pre ++ [b0]) _ _ _ (seen_inv_step pre seen b0 i Hinv) k b Hk Hl).
    destruct Hex as (b' & Hb' & Hn). exists b'. split; [|exact Hn].
    rewrite <- app_assoc. exact Hb'.
Qed.

Lemma positions_from_in (n : string) (bs : list block) :
  forall s k b, bs !! k = Some b -> normalize b = n -> In (s + k) (positions_from s bs n).
Proof.
  induction bs as [|b0 bs IH]; intros s k b Hk Hn; [discriminate|].
  simpl. destruct k as [|k].
  - injection Hk as <-. rewrite Hn, String.eqb_refl. left. lia.
  - replace (s + S k) with (S s + k) by lia.
    destruct (String.eqb (normalize b0) n); [right|]; eapply IH; eauto.
Qed.

Lemma unique_step_keeps (acc : list dup) (x d : dup) :
  d ∈ acc -> d ∈ unique_step acc x.
Proof.
  unfold unique_step. destruct (existsb _ _); [auto|]. rewrite elem_of_app. auto.
Qed.

Lemma unique_keeps (ds : list dup) :
  forall acc d, d ∈ acc -> d ∈ fold_left unique_step ds acc.
Proof.
  induction ds as [|x ds IH]; intros acc d Hd; simpl; [exact Hd|].
  apply IH, unique_step_keeps, Hd.
Qed.

Lemma unique_from (ds : list dup) :
  forall acc d, d ∈ fold_left unique_step ds acc -> d ∈ acc \/ d ∈ ds.
Proof.
  induction ds as [|x ds IH]; intros acc d Hd; simpl in Hd; [auto|].
  destruct (IH _ _ Hd) as [H|H].
  - unfold unique_step in H. destruct (existsb _ _); [auto|].
    rewrite elem_of_app, list_elem_of_singleton in H. destruct H as [H | ->]; [auto|].
    right. apply list_elem_of_here.
  - right. apply list_elem_of_further, H.
Qed.

(** Every scanned entry has a kept entry with the same positions. *)
Lemma unique_covers (ds : list dup) :
  forall acc d, d ∈ ds ->
  exists d', d' ∈ fold_left unique_step ds acc /\ d_positions d' = d_positions d.
Proof.
  induction ds as [|x ds IH]; intros acc d Hd;
    [apply not_elem_of_nil in Hd; contradiction|].
  apply elem_of_cons in Hd as [->|Hd]; simpl; [|apply IH, Hd].
  unfold unique_step at 2.
  destruct (existsb _ acc) eqn:E.
  - apply existsb_exists in E as (d' & Hd' & Hp). apply bool_decide_eq_true in Hp.
    exists d'. split; [apply unique_keeps, list_elem_of_In, Hd'|exact Hp].
  - exists x. split; [|reflexivity]. apply unique_keeps.
    rewrite elem_of_app, list_elem_of_singleton. auto.
Qed.

Lemma find_duplicates_later (content_blocks : list block) (e m : nat) (be bm : block) :
  e < m -> content_blocks !! e = Some be -> content_blocks !! m = Some bm ->
  normalize be = normalize bm -> 50 < String.length (normalize bm) ->
  exists d, d ∈ find_duplicates content_blocks
            /\ In e (d_positions d) /\ In m (d_positions d) /\ 2 <= d_count d.
Proof.
  intros Hlt He Hm Hn Hlong.
  assert (Hl : long (normalize bm) = true) by (apply Nat.ltb_lt; exact Hlong).
  destruct (scan_detects content_blocks content_blocks [] 0 ∅ [] seen_inv_nil m bm Hm Hl)
    as (d & Hd & Hp).
  { exists be. split; [|exact Hn]. simpl.
    apply list_elem_of_lookup_2 with e. rewrite lookup_take_lt by exact Hlt. exact He. }
  destruct (unique_covers _ [] d Hd) as (d' & Hd' & Hp').
  exists d'. split; [exact Hd'|].
  rewrite Hp', Hp. unfold positions.
  split; [|split].
  - apply (positions_from_in _ _ 0 e be); [exact He|exact Hn].
  - apply (positions_from_in _ _ 0 m bm); [exact Hm|reflexivity].
  - destruct (unique_from _ [] d' Hd') as [H|H]; [apply not_elem_of_nil in H; contradiction|].
    destruct (scan_count content_blocks content_blocks [] 0 ∅ [] seen_inv_nil d' H) as [H'|H'];
      [apply not_elem_of_nil in H'; contradiction|exact H'].
Qed.

(** C8: with pairwise distinct normalized block texts no duplicate is
    reported; when two blocks at different indices have the same
    normalized text longer than 50 characters, a duplicate entry is
    reported whose positions contain both indices and whose occurrence
    count is at least 2. *)
Theorem find_duplicates_detects (content_blocks : list block) :
  (NoDup (map normalize content_blocks) -> find_duplicates content_blocks = [])
  /\ (forall (i j : nat) (bi bj : block), i <> j ->
        content_blocks !! i = Some bi -> content_blocks !! j = Some bj ->
        normalize bi = normalize bj -> 50 < String.length (normalize bi) ->
        exists d, d ∈ find_duplicates content_blocks
                  /\ In i (d_positions d) /\ In j (d_positions d) /\ 2 <= d_count d).
Proof.
  split.
  - intros Hnd. unfold find_duplicates.
    rewrite (scan_nodup content_blocks content_blocks [] 0 ∅ [] seen_inv_nil Hnd).
    reflexivity.
  - intros i j bi bj Hij Hi Hj Hn Hlong.
    destruct (Nat.lt_total i j) as [Hlt|[Heq|Hgt]]; [|contradiction|].
    + rewrite Hn in Hlong. exact (find_duplicates_later _ i j bi bj Hlt Hi Hj Hn Hlong).
    + destruct (find_duplicates_later _ j i bj bi Hgt Hj Hi (eq_sym Hn) Hlong)
        as (d & Hd & Hj' & Hi' & Hc).
      exists d. auto.
Qed.

Lemma find_duplicates_detects_witness :
  let lorem := "Lorem ipsum dolor sit amet, consectetur adipiscing elit, sed do" in
  let bs := [mk_block "paragraph" lorem; mk_block "heading_h1" "Chapter 1";
             mk_block "paragraph" ("  " +:+ lorem)] in
  find_duplicates [mk_block "p" "one"; mk_block "p" "two"] = []
  /\ exists d, d ∈ find_duplicates bs
              /\ In 0 (d_positions d) /\ In 2 (d_positions d) /\ 2 <= d_count d.
Proof.
  intros lorem bs. split.
  - apply (proj1 (find_duplicates_detects _)). vm_compute.
    repeat constructor; set_solver.
  - apply (proj2 (find_duplicates_detects bs) 0 2 (mk_block "paragraph" lorem)
             (mk_block "paragraph" ("  " +:+ lorem))).
    + lia.
    + reflexivity.
    + reflexivity.
    + vm_compute. reflexivity.
    + vm_compute. lia.
Defined.

End Deduplication.

(* ================================================================== *)
(** ** Retry state machine *)

Section RetryState.
Import StateManager.

(** C6 (counterexample): three failed rounds bring a fresh page to
    [retry_count = max_retries = 3]; recording a further failed attempt
    leaves the status [failed], not [blocked], and no block reason is
    stored. *)
Lemma retry_exhausted_stays_failed :
  let round st := increment_retry
                    (mark_failed (record_attempt st "text" "failed" [] [])
                       "text" "coverage too low") in
  let st3 := round (round (round new_state)) in
  retry_count st3 = max_retries st3 /\
  can_retry st3 = false /\
  status (record_attempt st3 "text" "failed" [] []) = "failed" /\
  block_reason (record_attempt st3 "text" "failed" [] []) = None.
Proof. vm_compute. repeat split. Qed.

Lemma classic_op (o : op) :
  (exists s r, o = OpBlocked s r) \/ (forall s r, o <> OpBlocked s r).
Proof. destruct o; [right..|left; eauto|right|right]; intros; discriminate. Qed.

Lemma apply_op_other (st : vstate) (o : op) :
  (forall s r, o <> OpBlocked s r) ->
  (status (apply_op st o) = "blocked" -> status st = "blocked") /\
  (block_reason (apply_op st o) = block_reason st \/ block_reason (apply_op st o) = None).
Proof.
  intros Ho. destruct o as [s1 s2 sc iss|s1|s1 r1|s1 r1| |]; simpl.
  - split; [auto|left; reflexivity].
  - split; [discriminate|left; reflexivity].
  - split; [discriminate|left; reflexivity].
  - exfalso. exact (Ho s1 r1 eq_refl).
  - split; [auto|left; reflexivity].
  - split; [discriminate|right; reflexivity].
Qed.

Lemma fold_apply_blocked (ops : list op) :
  forall st0,
  (status (fold_left apply_op ops st0) = "blocked" ->
     status st0 = "blocked" \/ exists s r, In (OpBlocked s r) ops) /\
  (forall r, block_reason (fold_left apply_op ops st0) = Some r ->
     block_reason st0 = Some r \/ exists s, In (OpBlocked s r) ops).
Proof.
  induction ops as [|o ops IH]; intros st0; simpl; [split; auto|].
  destruct (IH (apply_op st0 o)) as [H1 H2].
  destruct (classic_op o) as [(s1 & r1 & ->)|Ho].
  - split.
    + intros _. right. exists s1, r1. left. reflexivity.
    + intros r H. destruct (H2 r H) as [Hr|(s & Hin)].
      * simpl in Hr. injection Hr as <-. right. exists s1. left. reflexivity.
      * right. exists s. right. exact Hin.
  - destruct (apply_op_other st0 o Ho) as [Hs Hb]. split.
    + intros H. destruct (H1 H) as [H'|(s & r & Hin)]; [left; exact (Hs H')|].
      right. exists s, r. right. exact Hin.
    + intros r H. destruct (H2 r H) as [H'|(s & Hin)].
      * left. destruct Hb as [Hb|Hb]; congruence.
      * right. exists s. right. exact Hin.
Qed.

Lemma fold_record_increment (ops : list op) :
  forall st0,
  Forall (fun o => match o with OpRecord _ _ _ _ | OpIncrement => True | _ => False end) ops ->
  status (fold_left apply_op ops st0) = status st0 /\
  block_reason (fold_left apply_op ops st0) = block_reason st0.
Proof.
  induction ops as [|o ops IH]; intros st0 Hf; simpl; [split; reflexivity|].
  inversion Hf as [|? ? Ho Hf']; subst.
  destruct (IH (apply_op st0 o) Hf') as [H1 H2]. rewrite H1, H2.
  destruct o; simpl in Ho; try contradiction; split; reflexivity.
Qed.

(** C6 (amended): the status [blocked] and a block reason come only
    from an explicit [mark_blocked] call.  Every other method
    ([record_attempt], [increment_retry], [mark_passed], [mark_failed],
    [reset]) leaves a non-blocked page non-blocked and either keeps the
    block reason or clears it, so along any sequence of calls from a fresh
    manager a [blocked] status or a block reason [r] implies a
    [mark_blocked] call (with reason [r]).  Recording attempts and
    incrementing the retry count, in any number and at any retry count,
    change neither the status nor the block reason, so a page whose
    retries are exhausted stays [failed] (or [new]).  [mark_blocked] sets
    the status, reason and stage at any retry count, leaving the count as
    it is, and [can_retry] is the bare comparison
    [retry_count < max_retries]. *)
Lemma blocked_only_by_mark_blocked (st : vstate) (stg stat : string)
    (scores : list (string * option Q)) (issues : list string) (reason : string) :
  status (record_attempt st stg stat scores issues) = status st /\
  block_reason (record_attempt st stg stat scores issues) = block_reason st /\
  status (increment_retry st) = status st /\
  block_reason (increment_retry st) = block_reason st /\
  (forall o : op, (forall s r, o <> OpBlocked s r) ->
     (status (apply_op st o) = "blocked" -> status st = "blocked") /\
     (block_reason (apply_op st o) = block_reason st \/ block_reason (apply_op st o) = None)) /\
  (forall ops : list op,
     (status (run ops) = "blocked" -> exists s r, In (OpBlocked s r) ops) /\
     (forall r, block_reason (run ops) = Some r -> exists s, In (OpBlocked s r) ops)) /\
  (forall ops : list op,
     Forall (fun o => match o with OpRecord _ _ _ _ | OpIncrement => True | _ => False end) ops ->
     status (fold_left apply_op ops st) = status st /\
     block_reason (fold_left apply_op ops st) = block_reason st) /\
  status (mark_blocked st stg reason) = "blocked" /\
  block_reason (mark_blocked st stg reason) = Some reason /\
  stage (mark_blocked st stg reason) = Some stg /\
  retry_count (mark_blocked st stg reason) = retry_count st /\
  can_retry st = (retry_count st <? max_retries st).
Proof.
  split; [reflexivity|]. split; [reflexivity|]. split; [reflexivity|]. split; [reflexivity|].
  split; [intros o; exact (apply_op_other st o)|].
  split; [|split; [intros ops; exact (fold_record_increment ops st)|repeat split]].
  intros ops. unfold run. destruct (fold_apply_blocked ops new_state) as [H1 H2]. split.
  - intros H. destruct (H1 H) as [H'|H']; [discriminate|exact H'].
  - intros r H. destruct (H2 r H) as [H'|H']; [discriminate|exact H'].
Qed.

(** The run of one [mark_blocked] call (a [blocked] status and its
    reason), and two further failed attempts and retries after a
    [mark_failed] that leave the page [failed]. *)
Lemma blocked_only_by_mark_blocked_witness :
  (exists s r, In (OpBlocked s r) [OpIncrement; OpBlocked "text" "max retries"])
  /\ (exists s, In (OpBlocked s "max retries") [OpIncrement; OpBlocked "text" "max retries"])
  /\ status (fold_left apply_op [OpRecord "text" "failed" [] []; OpIncrement;
                                  OpRecord "text" "failed" [] []; OpIncrement]
                (mark_failed new_state "text" "low")) = "failed".
Proof.
  destruct (blocked_only_by_mark_blocked (mark_failed new_state "text" "low")
              "text" "failed" [] [] "max retries")
    as (_ & _ & _ & _ & _ & Hrun & Hrec & _).
  destruct (Hrun [OpIncrement; OpBlocked "text" "max retries"]) as [H1 H2].
  split; [apply H1; vm_compute; reflexivity|].
  split; [apply H2; vm_compute; reflexivity|].
  destruct (Hrec [OpRecord "text" "failed" [] []; OpIncrement;
                  OpRecord "text" "failed" [] []; OpIncrement]) as [H3 _].
  - repeat constructor.
  - rewrite H3. reflexivity.
Defined.

(** C7 (counterexample): a page marked passed on its first attempt
    still reports [can_retry = true], and a later [mark_failed] moves it
    out of [passed]. *)
Lemma passed_can_still_retry :
  let st := mark_passed (record_attempt new_state "text" "passed" [] []) "text" in
  status st = "passed" /\
  can_retry st = true /\
  status (mark_failed st "html" "structure mismatch") = "failed".
Proof. vm_compute. repeat split. Qed.

(** C7 (amended): [mark_passed] sets the status to [passed] at any retry
    count and leaves the retry count and limit unchanged; [can_retry]
    compares only [retry_count] with [max_retries] and ignores the status,
    so it is unchanged by [mark_passed]; and no method refuses a later
    transition: [mark_failed] and [mark_blocked] overwrite [passed]. *)
Lemma mark_passed_not_terminal (st : vstate) (stg stg' reason : string) :
  status (mark_passed st stg) = "passed" /\
  retry_count (mark_passed st stg) = retry_count st /\
  max_retries (mark_passed st stg) = max_retries st /\
  can_retry (mark_passed st stg) = (retry_count st <? max_retries st) /\
  status (mark_failed (mark_passed st stg) stg' reason) = "failed" /\
  status (mark_blocked (mark_passed st stg) stg' reason) = "blocked".
Proof. repeat split. Qed.

End RetryState.

(* ================================================================== *)
(** ** Further properties of the comparator *)

(** Case analysis on the rational comparisons of a threshold ladder. *)
Ltac qcases :=
  repeat match goal with
  | |- context [Py.Qlt_bool ?a ?b] =>
      let E := fresh "E" in
      destruct (Py.Qlt_bool a b) eqn:E;
      [apply Qlt_bool_iff in E | apply Qlt_bool_false in E]
  | |- context [Qle_bool ?a ?b] =>
      let E := fresh "E" in
      destruct (Qle_bool a b) eqn:E;
      [apply Qle_bool_iff in E | apply Qle_bool_false in E]
  end.

Section ComparatorMore.
Import PageDiff.

Lemma lower_char_not_upper (c : ascii) : Py.is_upper_char (Py.lower_char c) = false.
Proof.
  destruct c as [[] [] [] [] [] [] [] []]; reflexivity.
Qed.

Lemma lower_char_id (c : ascii) : Py.is_upper_char c = false -> Py.lower_char c = c.
Proof. unfold Py.lower_char. intros ->. reflexivity. Qed.

Lemma filter_normal (s : string) :
  Py.string_forallb (fun c => negb (Py.is_upper_char c)) s = true ->
  Py.string_forallb normal_char (Py.string_filter is_word_or_hyphen s) = true.
Proof.
  induction s as [|c s IH]; simpl; [reflexivity|].
  intros H. apply andb_prop in H as [Hc Hs].
  destruct (is_word_or_hyphen c) eqn:E; simpl; [|auto].
  unfold normal_char. rewrite E, Hc. simpl. auto.
Qed.

Lemma lower_no_upper (s : string) :
  Py.string_forallb (fun c => negb (Py.is_upper_char c)) (Py.lower s) = true.
Proof.
  induction s as [|c s IH]; simpl; [reflexivity|].
  rewrite lower_char_not_upper, IH. reflexivity.
Qed.

Lemma normal_fixed (s : string) :
  Py.string_forallb normal_char s = true ->
  Py.string_filter is_word_or_hyphen (Py.lower s) = s.
Proof.
  induction s as [|c s IH]; simpl; [reflexivity|].
  unfold normal_char. intros H.
  apply andb_prop in H as [Hc Hs]. apply andb_prop in Hc as [Hw Hu].
  apply negb_true_iff in Hu. rewrite lower_char_id by exact Hu.
  rewrite Hw, IH by exact Hs. reflexivity.
Qed.

(** Normalising a normalised word changes nothing: [normalize_word] is
    idempotent, so the word sets compared by the diff are stable under a
    second normalisation. *)
Theorem normalize_word_idempotent (word : string) :
  normalize_word (normalize_word word) = normalize_word word.
Proof.
  assert (H : Py.string_forallb normal_char (normalize_word word) = true)
    by (apply filter_normal, lower_no_upper).
  unfold normalize_word at 1. apply normal_fixed, H.
Qed.

(** The missing and the extra words are disjoint, swapping the two word
    lists swaps them, and both are empty exactly when the two normalised
    word sets coincide. *)
Theorem find_missing_and_extra_sym (json_words html_words : list string) :
  let '(missing, extra) := find_missing_and_extra json_words html_words in
  missing ∩ extra = ∅
  /\ find_missing_and_extra html_words json_words = (extra, missing)
  /\ (missing = ∅ /\ extra = ∅ <-> word_set json_words = word_set html_words).
Proof.
  unfold find_missing_and_extra.
  set (J := word_set json_words). set (H := word_set html_words).
  split; [set_solver|]. split; [reflexivity|].
  split.
  - intros [H1 H2]. apply set_eq. intros x. split; intros Hx.
    + destruct (decide (x ∈ H)) as [|Hn]; [assumption|].
      assert (x ∈ J ∖ H) by set_solver. rewrite H1 in *. set_solver.
    + destruct (decide (x ∈ J)) as [|Hn]; [assumption|].
      assert (x ∈ H ∖ J) by set_solver. rewrite H2 in *. set_solver.
  - intros E. rewrite E. split; set_solver.
Qed.

Lemma missing_context_positions (json_words missing_words : list string) (k : nat) :
  forall ns i,
  map c_position (missing_context_from json_words missing_words k i ns)
  = List.filter (fun j => existsb (String.eqb (nth (j - i) ns EmptyString)) missing_words)
                (seq i (length ns)).
Proof.
  induction ns as [|x ns IH]; intros i; [reflexivity|].
  cbn [missing_context_from length seq List.filter].
  rewrite Nat.sub_diag. cbn [nth].
  destruct (existsb (String.eqb x) missing_words); cbn [map];
    rewrite IH; [f_equal|];
    apply List.filter_ext_in; intros j Hj; apply in_seq in Hj;
    replace (j - i) with (S (j - S i)) by lia; reflexivity.
Qed.

Lemma missing_context_words (json_words missing_words : list string) (k : nat) :
  forall ns i,
  Forall (fun it => c_word it = nth (c_position it) json_words EmptyString)
         (missing_context_from json_words missing_words k i ns).
Proof.
  induction ns as [|x ns IH]; intros i; simpl; [constructor|].
  destruct (existsb (String.eqb x) missing_words); [constructor|]; auto.
Qed.

(** [find_missing_context] reports, in increasing order, exactly the
    positions of the reference words whose normalised form is in
    [missing_words]; each entry's word is the reference word at its
    position. *)
Theorem find_missing_context_positions (json_words html_words missing_words : list string)
    (context_size : nat) :
  let items := find_missing_context json_words html_words missing_words context_size in
  map c_position items
  = List.filter (fun j => existsb (String.eqb (normalize_word (nth j json_words EmptyString)))
                                  missing_words)
                (seq 0 (length json_words))
  /\ Forall (fun it => c_word it = nth (c_position it) json_words EmptyString
                       /\ c_position it < length json_words) items.
Proof.
  intros items.
  assert (Hpos : map c_position items
    = List.filter (fun j => existsb (String.eqb (normalize_word (nth j json_words EmptyString)))
                                    missing_words) (seq 0 (length json_words))).
  { unfold items, find_missing_context. rewrite missing_context_positions, length_map.
    apply List.filter_ext_in. intros j _. rewrite Nat.sub_0_r.
    change EmptyString with (normalize_word EmptyString) at 1.
    rewrite map_nth. reflexivity. }
  split; [exact Hpos|].
  apply List.Forall_forall. intros it Hit. split.
  - pose proof (missing_context_words json_words missing_words context_size
                  (map normalize_word json_words) 0) as HF.
    rewrite List.Forall_forall in HF. apply HF, Hit.
  - assert (Hin : In (c_position it) (map c_position items)) by (apply in_map, Hit).
    rewrite Hpos in Hin. apply filter_In in Hin as [Hin _]. apply in_seq in Hin. lia.
Qed.

(** [find_word_sequences] maps each key to the entries of the windows
    with that key, in order of index, and has no empty lists; the windows
    indexed are those starting below [len(words) - context_size], so no
    recorded window reaches the last word. *)
Theorem find_word_sequences_lookup (words : list string) (context_size : nat) (key : string) :
  find_word_sequences words context_size !! key
  = match List.filter (fun i => String.eqb (sequence_key words context_size i) key)
                      (seq 0 (length words - context_size)) with
    | [] => None
    | l => Some (map (sequence_entry words context_size) l)
    end
  /\ (forall l e, find_word_sequences words context_size !! key = Some l -> In e l ->
                  s_end e < length words).
Proof.
  assert (G : forall is (m : gmap string (list seq_entry)),
    fold_left (fun sequences i =>
                 let key := sequence_key words context_size i in
                 <[key := default [] (sequences !! key)
                          ++ [sequence_entry words context_size i]]> sequences) is m !! key
    = match m !! key, List.filter (fun i => String.eqb (sequence_key words context_size i) key) is with
      | None, [] => None
      | o, l => Some (default [] o ++ map (sequence_entry words context_size) l)
      end).
  { induction is as [|i is IH]; intros m; simpl.
    - destruct (m !! key); [rewrite app_nil_r|]; reflexivity.
    - rewrite IH. destruct (String.eqb_spec (sequence_key words context_size i) key) as [E|E].
      + subst key. rewrite lookup_insert_eq.
        destruct (m !! sequence_key words context_size i); simpl;
          rewrite <- ?app_assoc; reflexivity.
      + rewrite lookup_insert_ne by congruence. reflexivity. }
  assert (Hl : find_word_sequences words context_size !! key
    = match List.filter (fun i => String.eqb (sequence_key words context_size i) key)
                        (seq 0 (length words - context_size)) with
      | [] => None
      | l => Some (map (sequence_entry words context_size) l)
      end).
  { unfold find_word_sequences. rewrite G, lookup_empty.
    destruct (List.filter _ _); reflexivity. }
  split; [exact Hl|].
  intros l e Hk He. rewrite Hl in Hk.
  destruct (List.filter _ _) as [|i0 is0] eqn:F; [discriminate|].
  injection Hk as <-. change (In e (map (sequence_entry words context_size) (i0 :: is0))) in He.
  apply in_map_iff in He as [i [<- Hi]].
  rewrite <- F in Hi. apply filter_In in Hi as [Hi _]. apply in_seq in Hi.
  simpl. lia.
Qed.

Lemma find_word_sequences_lookup_witness :
  let words := ["The"; "quick"; "brown"; "fox"] in
  find_word_sequences words 3 !! "the quick brown" = Some [sequence_entry words 3 0]
  /\ s_end (sequence_entry words 3 0) < length words.
Proof.
  split; [vm_compute; reflexivity|].
  apply (proj2 (find_word_sequences_lookup ["The"; "quick"; "brown"; "fox"] 3 "the quick brown")
           [sequence_entry ["The"; "quick"; "brown"; "fox"] 3 0]).
  - vm_compute. reflexivity.
  - left. reflexivity.
Defined.


(** The verdict printed as Status and the final RECOMMENDATION agree on
    rejection (above 100), on the perfect score and on failure (below 95);
    in between, the recommendation splits at 99.5 and 98 instead of 99, so
    a Status EXCELLENT page below 99.5 is recommended as GOOD. *)
Theorem recommend_vs_status (cov : Q) :
  (status cov = Rejected <-> recommend cov = RecReject)
  /\ (status cov = Perfect <-> recommend cov = RecPerfect)
  /\ (status cov = Failed <-> recommend cov = RecFail)
  /\ (status cov = Excellent ->
      recommend cov = RecExcellent \/ recommend cov = RecGood)
  /\ (status cov = Acceptable ->
      recommend cov = RecGood \/ recommend cov = RecAcceptable)
  /\ (status cov = Excellent /\ recommend cov = RecGood <-> (99 <= cov /\ cov < 199 # 2)%Q).
Proof.
  unfold status, recommend. qcases;
  repeat split; intros; repeat match goal with H : _ /\ _ |- _ => destruct H end;
  first [reflexivity | discriminate | (left; reflexivity) | (right; reflexivity)
        | lra | exfalso; lra].
Qed.

Lemma recommend_vs_status_witness :
  status (496 # 5) = Excellent /\ recommend (496 # 5) = RecGood.
Proof.
  apply (proj2 (proj2 (proj2 (proj2 (proj2 (recommend_vs_status (496 # 5))))))).
  split; lra.
Defined.

(** When [main] categorises the missing words (coverage below 100 and
    some word missing), the content and the formatting words split the
    missing set: they are disjoint, cover it, and the formatting ones are
    exactly those [is_formatting_word] accepts; otherwise both lists are
    empty. *)
Theorem categorize_partition (cov : Q) (missing : gset string) :
  let '(critical, formatting) := categorize cov missing in
  ((cov < 100)%Q -> missing ≠ ∅ ->
     critical ∪ formatting = missing /\ critical ∩ formatting = ∅
     /\ (forall w, w ∈ formatting <-> w ∈ missing /\ is_formatting_word w = true)
     /\ (forall w, w ∈ critical <-> w ∈ missing /\ is_formatting_word w = false))
  /\ ((100 <= cov)%Q \/ missing = ∅ -> critical = ∅ /\ formatting = ∅).
Proof.
  unfold categorize.
  destruct (Py.Qlt_bool 105 cov) eqn:E105;
    [apply Qlt_bool_iff in E105 | apply Qlt_bool_false in E105].
  { split; [intros; lra | intros; split; reflexivity]. }
  destruct (Py.Qlt_bool cov 100) eqn:E100;
    [apply Qlt_bool_iff in E100 | apply Qlt_bool_false in E100]; simpl.
  2: { split; [intros; lra | intros; split; reflexivity]. }
  destruct (bool_decide (missing ≠ ∅)) eqn:Em;
    [apply bool_decide_eq_true in Em | apply bool_decide_eq_false in Em].
  - split.
    + intros _ _. split; [|split; [|split]].
      * apply set_eq. intros w. rewrite elem_of_union, !elem_of_filter.
        destruct (is_formatting_word w); intuition congruence.
      * apply set_eq. intros w. rewrite elem_of_intersection, !elem_of_filter.
        split; [intros [[? _] [? _]]; congruence | set_solver].
      * intros w. rewrite elem_of_filter. tauto.
      * intros w. rewrite elem_of_filter. tauto.
    + intros [H | H]; [lra | contradiction].
  - split; [intros _ H; contradiction | intros; split; reflexivity].
Qed.

Lemma categorize_partition_witness :
  (50 < 100)%Q /\ {["a-b"; "-"]} ≠ (∅ : gset string)
  /\ fst (categorize 50 {["a-b"; "-"]}) ∪ snd (categorize 50 {["a-b"; "-"]}) = {["a-b"; "-"]}.
Proof.
  split; [lra|]. split; [set_solver|].
  pose proof (categorize_partition 50 {["a-b"; "-"]}) as H.
  destruct (categorize 50 {["a-b"; "-"]}) as [c f]. simpl.
  destruct H as [H _]. apply H; [lra | set_solver].
Defined.

Lemma split_empty_filter (l : list string) :
  concat (map Py.split (List.filter (fun t => negb (String.eqb t EmptyString)) l))
  = concat (map Py.split l).
Proof.
  induction l as [|t l IH]; [reflexivity|].
  simpl. destruct (String.eqb_spec t EmptyString) as [->|]; simpl; rewrite IH; reflexivity.
Qed.

(** The reference words of a page are the words of its spans, in order
    (blank spans and surrounding whitespace contribute nothing); a page
    absent from the JSON yields no words, so its coverage is 0 and the
    verdict Failed whatever the HTML. *)
Theorem extract_text_from_json_words
    (data : option (gmap string (option (list (option string))))) (page_num : Z)
    (html_text : string) :
  tokenize_words (extract_text_from_json data page_num)
  = match default ∅ data !! pretty page_num with
    | Some page_data => concat (map (fun sp => Py.split (span_text sp)) (default [] page_data))
    | None => []
    end
  /\ (default ∅ data !! pretty page_num = None ->
      r_coverage (diff (extract_text_from_json data page_num) html_text) = 0%Q
      /\ r_verdict (diff (extract_text_from_json data page_num) html_text) = Failed).
Proof.
  unfold extract_text_from_json, tokenize_words.
  split.
  - destruct (default ∅ data !! pretty page_num) as [pd|]; [|reflexivity].
    unfold page_chunks. rewrite split_join, split_empty_filter, map_map.
    f_equal. apply map_ext. intros sp. apply split_strip.
  - intros ->. unfold diff. cbn [find_missing_and_extra].
    destruct (categorize _ _). split; reflexivity.
Qed.

Lemma extract_text_from_json_words_witness :
  (∅ : gmap string (option (list (option string)))) !! pretty 7%Z = None
  /\ r_verdict (diff (extract_text_from_json (Some ∅) 7) "some words") = Failed.
Proof.
  split; [reflexivity|].
  apply (proj2 (extract_text_from_json_words (Some ∅) 7 "some words")). reflexivity.
Defined.

End ComparatorMore.

(* ================================================================== *)
(** ** Text-content verifier *)

Section TextContentProps.
Import TextContent.

Lemma lower_char_idem (c : ascii) : Py.lower_char (Py.lower_char c) = Py.lower_char c.
Proof. destruct c as [[] [] [] [] [] [] [] []]; reflexivity. Qed.

Lemma lower_idem (s : string) : Py.lower (Py.lower s) = Py.lower s.
Proof. induction s as [|c s IH]; simpl; [reflexivity|]. rewrite lower_char_idem, IH. reflexivity. Qed.

Lemma lower_app (a b : string) : Py.lower (a +:+ b) = Py.lower a +:+ Py.lower b.
Proof. induction a as [|c a IH]; simpl; [reflexivity|]. rewrite IH. reflexivity. Qed.

Lemma digit_not_upper (c : ascii) : is_digit c = true -> Py.is_upper_char c = false.
Proof. destruct c as [[] [] [] [] [] [] [] []]; vm_compute; congruence. Qed.

Lemma digit_not_ws (c : ascii) : is_digit c = true -> Py.is_ws c = false.
Proof. destruct c as [[] [] [] [] [] [] [] []]; vm_compute; congruence. Qed.

Lemma lower_digits (d : string) :
  Py.string_forallb is_digit d = true -> Py.lower d = d.
Proof.
  induction d as [|c d IH]; simpl; [reflexivity|].
  intros H. apply andb_prop in H as [Hc Hd].
  unfold Py.lower_char. rewrite digit_not_upper by exact Hc. rewrite IH by exact Hd. reflexivity.
Qed.

Lemma rstrip_cons_nonws (c : ascii) (b : string) :
  Py.is_ws c = false -> Py.rstrip (String c b) = String c (Py.rstrip b).
Proof. intros H. simpl. destruct (Py.rstrip b); [rewrite H|]; reflexivity. Qed.

Lemma rstrip_app_nonws (a b : string) (c : ascii) :
  Py.is_ws c = false -> Py.rstrip (a +:+ String c b) = a +:+ String c (Py.rstrip b).
Proof.
  intros H. induction a as [|x a IH]; simpl.
  - destruct (Py.rstrip b); [rewrite H|]; reflexivity.
  - rewrite IH. destruct a; reflexivity.
Qed.

Lemma rstrip_digits (d : string) :
  Py.string_forallb is_digit d = true -> Py.rstrip d = d.
Proof.
  induction d as [|c d IH]; simpl; [reflexivity|].
  intros H. apply andb_prop in H as [Hc Hd]. rewrite IH by exact Hd.
  destruct d; [|reflexivity]. rewrite digit_not_ws by exact Hc. reflexivity.
Qed.

Lemma drop_while_all (p : ascii -> bool) (d : string) :
  Py.string_forallb p d = true -> drop_while p d = EmptyString.
Proof.
  induction d as [|c d IH]; simpl; [reflexivity|].
  intros H. apply andb_prop in H as [-> Hd]. auto.
Qed.

Lemma drop_while_app (p : ascii -> bool) (d b : string) (c : ascii) :
  Py.string_forallb p d = true -> p c = false -> drop_while p (d +:+ String c b) = String c b.
Proof.
  intros Hd Hc. induction d as [|x d IH]; simpl in *.
  - rewrite Hc. reflexivity.
  - apply andb_prop in Hd as [-> Hd]. auto.
Qed.

Lemma substring_all (b : string) : substring 0 (String.length b) b = b.
Proof. induction b as [|c b IH]; simpl; [reflexivity|]. rewrite IH. reflexivity. Qed.

Lemma lit_app (w b : string) : lit w (w +:+ b) = Some b.
Proof.
  induction w as [|c w IH]; unfold lit in *; simpl.
  - destruct b; simpl; rewrite ?Nat.sub_0_r, ?substring_all; reflexivity.
  - destruct (ascii_dec c c); [exact IH | congruence].
Qed.

(** A span made only of digits (a page number) and a span starting
    [Chapter <digits>:], in any letter case, are headers or footers: the
    text-content check drops them from the reference text.  The test
    ignores letter case. *)
Theorem header_footer_drops (d rest t : string) :
  (d <> EmptyString -> Py.string_forallb is_digit d = true ->
     is_header_footer_text d = true
     /\ is_header_footer_text ("Chapter " +:+ d +:+ ":" +:+ rest) = true)
  /\ is_header_footer_text (Py.lower t) = is_header_footer_text t.
Proof.
  split.
  - intros Hne Hd. destruct d as [|c0 d0]; [congruence|].
    pose proof Hd as Hd'. simpl in Hd'. apply andb_prop in Hd' as [Hc0 Hd0].
    split.
    + unfold is_header_footer_text. rewrite lower_digits by exact Hd.
      assert (Hs : Py.strip (String c0 d0) = String c0 d0).
      { unfold Py.strip. simpl. rewrite digit_not_ws by exact Hc0.
        apply rstrip_digits. exact Hd. }
      rewrite Hs. unfold pat_page_number. simpl. rewrite Hc0.
      rewrite drop_while_all by exact Hd0.
      rewrite !orb_true_r. reflexivity.
    + unfold is_header_footer_text.
      rewrite !lower_app, (lower_digits (String c0 d0) Hd).
      change (Py.lower "Chapter ") with ("chapter" +:+ " ").
      change (Py.lower ":") with ":".
      assert (Hs : Py.strip (("chapter" +:+ " ") +:+ String c0 d0 +:+ ":" +:+ Py.lower rest)
                   = "chapter" +:+ " " +:+ String c0 d0 +:+ ":" +:+ Py.rstrip (Py.lower rest)).
      { unfold Py.strip.
        replace (Py.lstrip (("chapter" +:+ " ") +:+ String c0 d0 +:+ ":" +:+ Py.lower rest))
          with (("chapter " +:+ String c0 d0) +:+ String ":" (Py.lower rest)) by reflexivity.
        rewrite (rstrip_app_nonws ("chapter " +:+ String c0 d0) (Py.lower rest) ":"%char)
          by reflexivity.
        reflexivity. }
      rewrite Hs.
      assert (Hm : pat_chapter_header
                     ("chapter" +:+ " " +:+ String c0 d0 +:+ ":" +:+ Py.rstrip (Py.lower rest)) = true).
      { unfold pat_chapter_header, seq_match. cbn [fold_left].
        rewrite lit_app. unfold TextContent.plus, star. simpl.
        rewrite (digit_not_ws c0 Hc0), Hc0.
        change (d0 +:+ ":" +:+ Py.rstrip (Py.lower rest))
          with (d0 +:+ String ":" (Py.rstrip (Py.lower rest))).
        rewrite (drop_while_app _ d0 (Py.rstrip (Py.lower rest)) ":"%char Hd0) by reflexivity.
        cbn [star drop_while]. change (Py.is_ws ":"%char) with false. cbn iota.
        change (String ":" (Py.rstrip (Py.lower rest))) with (":" +:+ Py.rstrip (Py.lower rest)).
        rewrite lit_app. apply bool_decide_eq_true. eexists. reflexivity. }
      rewrite Hm, orb_true_r. reflexivity.
  - unfold is_header_footer_text. rewrite lower_idem. reflexivity.
Qed.

Lemma header_footer_drops_witness :
  "12" <> EmptyString /\ Py.string_forallb is_digit "12" = true
  /\ is_header_footer_text ("Chapter " +:+ "12" +:+ ":" +:+ " Leasing") = true.
Proof.
  split; [discriminate|]. split; [reflexivity|].
  apply (proj1 (header_footer_drops "12" " Leasing" EmptyString)); [discriminate | reflexivity].
Defined.

Lemma split_aux_nil (s : string) :
  forall cur, Py.split_aux cur s = [] -> cur = EmptyString /\ Py.string_forallb Py.is_ws s = true.
Proof.
  induction s as [|c s IH]; intros cur H; simpl in *.
  - destruct cur; [split; reflexivity | discriminate].
  - destruct (Py.is_ws c) eqn:E.
    + apply app_eq_nil in H as [H1 H2]. apply IH in H2 as [_ H2].
      destruct cur; [|discriminate]. split; [reflexivity | exact H2].
    + apply IH in H as [H _]. destruct cur; discriminate.
Qed.

Lemma strip_ws (s : string) : Py.string_forallb Py.is_ws s = true -> Py.strip s = EmptyString.
Proof.
  unfold Py.strip. intros H. enough (Py.lstrip s = EmptyString) as -> by reflexivity.
  induction s as [|c s IH]; simpl in *; [reflexivity|].
  apply andb_prop in H as [-> H]. auto.
Qed.

Lemma split_stripped_nonempty (t : string) :
  Py.strip t <> EmptyString -> Py.split (Py.strip t) <> [].
Proof.
  rewrite split_strip. intros Hne Hs. apply split_aux_nil in Hs as [_ Hs].
  apply Hne, strip_ws, Hs.
Qed.

Lemma words_at_least_chunks (l : list string) :
  Forall (fun t => t <> EmptyString /\ exists x, t = Py.strip x) l ->
  length l <= length (concat (map Py.split l)).
Proof.
  induction l as [|t l IH]; simpl; [lia|].
  intros H. inversion H as [|? ? [Hne [x ->]] Hl]; subst.
  rewrite length_app. specialize (IH Hl).
  destruct (Py.split (Py.strip x)) eqn:E; [|simpl; lia].
  exfalso. exact (split_stripped_nonempty x Hne E).
Qed.

(** With a page number, the reference words are the words of the kept
    spans (non-blank, not header or footer) in order, and the reported
    [text_span_count] counts those spans, so it never exceeds the word
    count. *)
Theorem text_content_extract_words
    (data : option (gmap string (option (list (option string))))) (page_num : Z) :
  let '(json_text, span_count) := extract_text_from_json data page_num in
  Py.split json_text
  = match default ∅ data !! pretty page_num with
    | Some page_data => concat (map Py.split (kept_chunks page_data))
    | None => []
    end
  /\ span_count = match default ∅ data !! pretty page_num with
                  | Some page_data => length (kept_chunks page_data)
                  | None => 0
                  end
  /\ span_count <= length (Py.split json_text).
Proof.
  unfold extract_text_from_json.
  destruct (default ∅ data !! pretty page_num) as [pd|]; [|repeat split; simpl; lia].
  rewrite split_join. split; [reflexivity|]. split; [reflexivity|].
  apply words_at_least_chunks. unfold kept_chunks.
  apply List.Forall_forall. intros t Ht.
  apply filter_In in Ht as [Ht Hk]. apply andb_prop in Hk as [Hk _].
  apply negb_true_iff, String.eqb_neq in Hk.
  apply in_map_iff in Ht as [sp [<- _]]. split; [exact Hk | eexists; reflexivity].
Qed.

(** The text-content check passes (exit 0) at every coverage the page
    diff does not rate Failed, including coverages above 100 that the
    diff rejects; it also passes coverages in [94, 95) that the diff
    rates Failed.  It warns (exit 1) on [85, 94) and fails (exit 2) below
    85. *)
Theorem exit_code_vs_diff (cov : Q) :
  (PageDiff.status cov <> PageDiff.Failed -> exit_code cov = 0)
  /\ (exit_code cov = 0 /\ PageDiff.status cov = PageDiff.Failed <-> (94 <= cov /\ cov < 95)%Q)
  /\ (exit_code cov = 0 <-> (94 <= cov)%Q)
  /\ (exit_code cov = 1 <-> (85 <= cov /\ cov < 94)%Q)
  /\ (exit_code cov = 2 <-> (cov < 85)%Q).
Proof.
  unfold exit_code, PageDiff.status. qcases;
  repeat split; intros; repeat match goal with H : _ /\ _ |- _ => destruct H end;
  first [reflexivity | discriminate | congruence | lra | exfalso; lra].
Qed.

Lemma exit_code_vs_diff_witness :
  PageDiff.status 120 = PageDiff.Rejected /\ exit_code 120 = 0.
Proof.
  split; [vm_compute; reflexivity|].
  apply (proj1 (exit_code_vs_diff 120)). vm_compute. discriminate.
Defined.

End TextContentProps.

(* ================================================================== *)
(** ** HTML rendering of the classified elements *)

Section Rendering.
Import Semantic.

Lemma escape_char_cases (c : ascii) :
  (c = "&"%char /\ escape_char c = "&amp;")
  \/ (c = "<"%char /\ escape_char c = "&lt;")
  \/ (c = ">"%char /\ escape_char c = "&gt;")
  \/ (c = "034"%char /\ escape_char c = "&quot;")
  \/ (c = "039"%char /\ escape_char c = "&#x27;")
  \/ (c <> "&"%char /\ markup_char c = false /\ escape_char c = String c EmptyString).
Proof.
  unfold escape_char, markup_char.
  destruct (Ascii.eqb_spec c "&"); [left; auto|].
  destruct (Ascii.eqb_spec c "<"); [right; left; auto|].
  destruct (Ascii.eqb_spec c ">"); [do 2 right; left; auto|].
  destruct (Ascii.eqb_spec c "034"); [do 3 right; left; auto|].
  destruct (Ascii.eqb_spec c "039"); [do 4 right; left; auto|].
  do 5 right. auto.
Qed.

Lemma escape_char_app_inj (c1 c2 : ascii) (x y : string) :
  escape_char c1 +:+ x = escape_char c2 +:+ y -> c1 = c2 /\ x = y.
Proof.
  destruct (escape_char_cases c1) as [[-> ->]|[[-> ->]|[[-> ->]|[[-> ->]|[[-> ->]|(N1 & _ & ->)]]]]];
  destruct (escape_char_cases c2) as [[-> ->]|[[-> ->]|[[-> ->]|[[-> ->]|[[-> ->]|(N2 & _ & ->)]]]]];
  simpl; intros H; inversion H; subst; auto; congruence.
Qed.

Lemma escape_char_nonempty (c : ascii) : escape_char c <> EmptyString.
Proof.
  destruct (escape_char_cases c) as [[_ ->]|[[_ ->]|[[_ ->]|[[_ ->]|[[_ ->]|(_ & _ & ->)]]]]];
  discriminate.
Qed.

Lemma forallb_app (p : ascii -> bool) (a b : string) :
  Py.string_forallb p (a +:+ b) = Py.string_forallb p a && Py.string_forallb p b.
Proof. induction a as [|c a IH]; simpl; [reflexivity|]. rewrite IH, andb_assoc. reflexivity. Qed.

Lemma escape_char_clean (c : ascii) :
  Py.string_forallb (fun x => negb (markup_char x)) (escape_char c) = true.
Proof.
  destruct (escape_char_cases c) as [[_ ->]|[[_ ->]|[[_ ->]|[[_ ->]|[[_ ->]|(_ & M & ->)]]]]];
  try reflexivity.
  simpl. rewrite M. reflexivity.
Qed.

(** [html.escape] output never contains a less-than, greater-than, double
    or single quote, so element text cannot open or close a tag or an
    attribute; it is injective (distinct texts give distinct markup); and
    text without the five escaped characters is left as it is. *)
Theorem escape_safe_injective (s1 s2 : string) :
  Py.string_forallb (fun c => negb (markup_char c)) (escape s1) = true
  /\ (escape s1 = escape s2 -> s1 = s2)
  /\ (Py.string_forallb (fun c => negb (markup_char c || Ascii.eqb c "&"%char)) s1 = true ->
      escape s1 = s1).
Proof.
  split; [|split].
  - induction s1 as [|c s IH]; simpl; [reflexivity|].
    rewrite forallb_app, escape_char_clean, IH. reflexivity.
  - revert s2. induction s1 as [|c1 s1 IH]; intros [|c2 s2]; simpl; intros H.
    + reflexivity.
    + exfalso. destruct (escape_char c2) eqn:E; [exact (escape_char_nonempty c2 E)|discriminate].
    + exfalso. destruct (escape_char c1) eqn:E; [exact (escape_char_nonempty c1 E)|discriminate].
    + apply escape_char_app_inj in H as [-> H]. f_equal. apply IH, H.
  - induction s1 as [|c s IH]; simpl; [reflexivity|].
    intros H. apply andb_prop in H as [Hc Hs]. rewrite IH by exact Hs.
    destruct (escape_char_cases c) as [[-> _]|[[-> _]|[[-> _]|[[-> _]|[[-> _]|(_ & _ & ->)]]]]];
      simpl in Hc; try discriminate; reflexivity.
Qed.

Lemma escape_safe_injective_witness :
  escape "Tom & Jerry" = "Tom &amp; Jerry"
  /\ (escape "a<b" = escape "a<b" -> "a<b" = "a<b")
  /\ escape "plain text" = "plain text".
Proof.
  split; [vm_compute; reflexivity|]. split.
  - apply (proj1 (proj2 (escape_safe_injective "a<b" "a<b"))).
  - apply (proj2 (proj2 (escape_safe_injective "plain text" EmptyString))). vm_compute. reflexivity.
Defined.

End Rendering.

Section HeadingLevels.
Import Semantic.

Lemma heading_level_range (sp : span) (t : string) (b : bool) :
  1 <= heading_level sp t b <= 4.
Proof.
  unfold heading_level.
  destruct (_ && _); [lia|]. destruct (_ && _); [lia|]. destruct b; lia.
Qed.

Lemma flush_group_level (g : list gspan) :
  Forall good_level (option_list (flush_group g)).
Proof. destruct g; simpl; repeat constructor. Qed.

Lemma heading_of_level (st : state) :
  levels_ok st -> current_heading_parts st <> [] -> good_level (heading_of st).
Proof.
  intros [_ HP] Hne. destruct (HP Hne) as (n & Hn & Hr).
  exists n. split; [exact Hn | lia].
Qed.

Lemma step_levels (st : state) (sp : span) : levels_ok st -> levels_ok (step st sp).
Proof.
  intros Hok. pose proof Hok as [HF HP]. unfold step.
  destruct (String.eqb _ _); [exact Hok|].
  destruct (is_noise _); [exact Hok|].
  destruct (is_heading_candidate _ _ _).
  - pose proof (heading_level_range sp (Py.strip (text sp))
                  (Py.isupper (Py.strip (text sp)) && (2 <? String.length (Py.strip (text sp))))) as Hr.
    revert Hr.
    generalize (heading_level sp (Py.strip (text sp))
                  (Py.isupper (Py.strip (text sp)) && (2 <? String.length (Py.strip (text sp))))).
    intros lvl Hr.
    assert (Hst1 : levels_ok
      (match current_heading_level st with
       | Some l =>
           if negb (l =? lvl) then
             mk_state (elements st ++ match current_heading_parts st with
                                      | [] => [] | _ => [heading_of st] end)
                      (current_group st) [] (current_heading_level st)
           else
             match current_group st with
             | [] => st
             | g => mk_state (elements st ++ option_list (flush_group g)) []
                             (current_heading_parts st) (current_heading_level st)
             end
       | None =>
           match current_group st with
           | [] => st
           | g => mk_state (elements st ++ option_list (flush_group g)) []
                           (current_heading_parts st) (current_heading_level st)
           end
       end)).
    { assert (Hg : levels_ok (match current_group st with
             | [] => st
             | g => mk_state (elements st ++ option_list (flush_group g)) []
                             (current_heading_parts st) (current_heading_level st)
             end)).
      { destruct (current_group st) as [|g gs]; [exact Hok|].
        split; [apply Forall_app; split; [exact HF|apply flush_group_level]|exact HP]. }
      destruct (current_heading_level st) as [l|]; [|exact Hg].
      destruct (negb (l =? lvl)); [|exact Hg].
      split; simpl; [|intros Hn; contradiction Hn; reflexivity].
      apply Forall_app; split; [exact HF|].
      destruct (current_heading_parts st) eqn:Ep; [constructor|].
      constructor; [|constructor]. apply heading_of_level; [exact Hok|]. rewrite Ep. discriminate. }
    revert Hst1. generalize (match current_heading_level st with
       | Some l =>
           if negb (l =? lvl) then
             mk_state (elements st ++ match current_heading_parts st with
                                      | [] => [] | _ => [heading_of st] end)
                      (current_group st) [] (current_heading_level st)
           else
             match current_group st with
             | [] => st
             | g => mk_state (elements st ++ option_list (flush_group g)) []
                             (current_heading_parts st) (current_heading_level st)
             end
       | None =>
           match current_group st with
           | [] => st
           | g => mk_state (elements st ++ option_list (flush_group g)) []
                           (current_heading_parts st) (current_heading_level st)
           end
       end).
    intros st1 Hst1.
    destruct (Nat.leb_spec lvl 3) as [Hle|Hgt].
    + split; [exact (proj1 Hst1)|]. intros _. exists lvl. simpl. split; [reflexivity|lia].
    + assert (Hst2 : levels_ok (match current_heading_parts st1 with
        | [] => st1
        | _ => mk_state (elements st1 ++ [heading_of st1]) (current_group st1) [] None
        end)).
      { destruct (current_heading_parts st1) eqn:Ep; [exact Hst1|].
        split; simpl; [|intros Hn; contradiction Hn; reflexivity].
        apply Forall_app; split; [exact (proj1 Hst1)|].
        constructor; [|constructor]. apply heading_of_level; [exact Hst1|]. rewrite Ep. discriminate. }
      destruct Hst2 as [HF2 HP2]. split; simpl; [|exact HP2].
      apply Forall_app; split; [exact HF2|]. constructor; [|constructor].
      exists lvl. split; [reflexivity|lia].
  - assert (Hst1 : levels_ok (match current_heading_parts st with
        | [] => st
        | _ => mk_state (elements st ++ [heading_of st]) (current_group st) [] None
        end)).
    { destruct (current_heading_parts st) eqn:Ep; [exact Hok|].
      split; simpl; [|intros Hn; contradiction Hn; reflexivity].
      apply Forall_app; split; [exact HF|].
      constructor; [|constructor]. apply heading_of_level; [exact Hok|]. rewrite Ep. discriminate. }
    destruct Hst1 as [HF1 HP1]. split; simpl; [exact HF1|exact HP1].
Qed.

(** Every heading element the classifier emits carries a level 1 to 4, never
    [None]: the tag that [build_html_from_elements] writes for it is one of
    h1 to h4, with the matching class. *)
Theorem group_headings_have_level (spans : list span) :
  Forall (fun e => match e with
                   | Heading l _ => exists n, l = Some n /\ 1 <= n <= 4
                   | Paragraph _ _ => True
                   end) (group_text_spans_into_elements spans).
Proof.
  change (Forall good_level (group_text_spans_into_elements spans)).
  destruct spans as [|sp spans]; [constructor|].
  unfold group_text_spans_into_elements.
  assert (Hf : levels_ok (fold_left step (sp :: spans) init)).
  { assert (Hi : levels_ok init) by (split; [constructor|intros Hn; contradiction Hn; reflexivity]).
    revert Hi. generalize init.
    induction (sp :: spans) as [|x xs IH]; intros s Hs; simpl; [exact Hs|].
    apply IH, step_levels, Hs. }
  revert Hf. generalize (fold_left step (sp :: spans) init). intros st Hok.
  unfold finish.
  assert (He : Forall good_level (match current_heading_parts st with
             | [] => elements st | _ => elements st ++ [heading_of st] end)).
  { destruct (current_heading_parts st) eqn:Ep; [exact (proj1 Hok)|].
    apply Forall_app; split; [exact (proj1 Hok)|]. constructor; [|constructor].
    apply heading_of_level; [exact Hok|]. rewrite Ep. discriminate. }
  destruct (current_group st); [exact He|].
  apply Forall_app; split; [exact He|apply flush_group_level].
Qed.

End HeadingLevels.

(* ================================================================== *)
(** ** Font-size histogram of the chapter generator *)

Section Histogram.
Import Semantic ChapterHtml.

Definition key (p : Q * nat) : Q := Qred (fst p).
Definition by_count (a b : Q * nat) : Prop := snd b <= snd a.

Lemma hist_add_sum (k : Q) (h : list (Q * nat)) :
  list_sum (map snd (hist_add k h)) = S (list_sum (map snd h)).
Proof.
  induction h as [|[k' c] h IH]; simpl; [reflexivity|].
  destruct (Qeq_bool k k'); simpl; [reflexivity|]. rewrite IH. lia.
Qed.

Lemma hist_add_keys (k : Q) (h : list (Q * nat)) (x : Q) :
  In x (map key (hist_add k h)) -> In x (map key h) \/ x = Qred k.
Proof.
  induction h as [|[k' c] h IH]; simpl.
  - intros [<-|[]]. right. reflexivity.
  - destruct (Qeq_bool k k'); simpl; [intros H; left; exact H|].
    intros [<-|H]; [left; left; reflexivity|].
    destruct (IH H) as [H'|H']; [left; right; exact H'|right; exact H'].
Qed.

Lemma hist_add_nodup (k : Q) (h : list (Q * nat)) :
  NoDup (map key h) -> NoDup (map key (hist_add k h)).
Proof.
  induction h as [|[k' c] h IH]; simpl; intros Hn.
  - apply NoDup_singleton.
  - inversion Hn as [|? ? Hnin Hn']; subst.
    destruct (Qeq_bool k k') eqn:E; simpl; [exact Hn|].
    constructor; [|exact (IH Hn')].
    intros Hin. apply list_elem_of_In in Hin.
    destruct (hist_add_keys k h _ Hin) as [H|H]; [exact (Hnin (proj2 (list_elem_of_In _ _) H))|].
    apply Qeq_bool_neq in E. apply E.
    unfold key in H; simpl in H.
    rewrite <- (Qred_correct k), <- (Qred_correct k'), H. reflexivity.
Qed.

Lemma hist_add_pos (k : Q) (h : list (Q * nat)) :
  Forall (fun p => 1 <= snd p) h -> Forall (fun p => 1 <= snd p) (hist_add k h).
Proof.
  induction h as [|[k' c] h IH]; simpl; intros Hf.
  - constructor; [simpl; lia|constructor].
  - inversion Hf as [|? ? Hc Hf']; subst.
    destruct (Qeq_bool k k'); constructor; simpl in *; auto; lia.
Qed.

Lemma hist_add_origin (P : Q -> Prop) (k : Q) (h : list (Q * nat)) :
  P k -> Forall (fun p => P (fst p)) h -> Forall (fun p => P (fst p)) (hist_add k h).
Proof.
  intros Hk. induction h as [|[k' c] h IH]; simpl; intros Hf.
  - constructor; [exact Hk|constructor].
  - inversion Hf as [|? ? Hc Hf']; subst.
    destruct (Qeq_bool k k'); constructor; auto.
Qed.

Lemma insert_desc_perm (x : Q * nat) (l : list (Q * nat)) :
  Permutation (insert_desc x l) (x :: l).
Proof.
  induction l as [|y l IH]; simpl; [reflexivity|].
  destruct (snd y <? snd x); [reflexivity|].
  rewrite IH. apply perm_swap.
Qed.

Lemma insert_desc_hd (x y : Q * nat) (l : list (Q * nat)) :
  HdRel by_count y l -> by_count y x -> HdRel by_count y (insert_desc x l).
Proof.
  intros Hh Hyx. destruct l as [|z l]; simpl; [constructor; exact Hyx|].
  destruct (snd z <? snd x); constructor; [exact Hyx|]. inversion Hh; assumption.
Qed.

Lemma insert_desc_sorted (x : Q * nat) (l : list (Q * nat)) :
  Sorted by_count l -> Sorted by_count (insert_desc x l).
Proof.
  induction l as [|y l IH]; simpl; intros Hs.
  - repeat constructor.
  - destruct (Nat.ltb_spec (snd y) (snd x)) as [Hlt|Hge].
    + constructor; [exact Hs|]. constructor. unfold by_count. lia.
    + inversion Hs as [|? ? Hs' Hh]; subst. constructor; [exact (IH Hs')|].
      apply insert_desc_hd; [exact Hh|]. unfold by_count. lia.
Qed.

Lemma sort_desc_fold (l acc : list (Q * nat)) :
  Sorted by_count acc ->
  Sorted by_count (fold_left (fun acc x => insert_desc x acc) l acc)
  /\ Permutation (fold_left (fun acc x => insert_desc x acc) l acc) (l ++ acc).
Proof.
  revert acc. induction l as [|x l IH]; simpl; intros acc Hs; [split; [exact Hs|reflexivity]|].
  destruct (IH (insert_desc x acc) (insert_desc_sorted x acc Hs)) as [H1 H2].
  split; [exact H1|]. rewrite H2, insert_desc_perm. symmetry. apply Permutation_middle.
Qed.

Lemma list_sum_perm (l l' : list nat) : Permutation l l' -> list_sum l = list_sum l'.
Proof. induction 1; simpl; lia. Qed.

Lemma hist_fold (l : list span) (h : list (Q * nat)) :
  let h' := fold_left (fun h sp => hist_add (round1 (size sp)) h) l h in
  (list_sum (map snd h') = list_sum (map snd h) + length l)
  /\ (NoDup (map key h) -> NoDup (map key h'))
  /\ (Forall (fun p => 1 <= snd p) h -> Forall (fun p => 1 <= snd p) h')
  /\ (forall P : Q -> Prop, Forall (fun sp => P (round1 (size sp))) l ->
      Forall (fun p => P (fst p)) h -> Forall (fun p => P (fst p)) h').
Proof.
  revert h. induction l as [|sp l IH]; intros h; simpl.
  - split; [lia|]. split; [auto|]. split; auto.
  - destruct (IH (hist_add (round1 (size sp)) h)) as (H1 & H2 & H3 & H4).
    split; [rewrite H1, hist_add_sum; lia|].
    split; [intros Hn; apply H2, hist_add_nodup, Hn|].
    split; [intros Hp; apply H3, hist_add_pos, Hp|].
    intros P Hl Hh. inversion Hl as [|? ? Hsp Hl']; subst.
    apply H4; [exact Hl'|]. apply hist_add_origin; assumption.
Qed.

(** [analyze_structure] returns a histogram of the rounded font sizes:
    its counts add up to the number of spans, each rounded size (up to
    numeric equality) appears once with a positive count and is the
    rounded size of some span, and the entries are in non-increasing
    order of count. *)
Theorem analyze_structure_histogram (pages : list (list span)) :
  let h := analyze_structure pages in
  list_sum (map snd h) = length (concat pages)
  /\ NoDup (map (fun p => Qred (fst p)) h)
  /\ Forall (fun p => 1 <= snd p) h
  /\ Sorted (fun a b => snd b <= snd a) h
  /\ Forall (fun p => exists sp, In sp (concat pages) /\ fst p = round1 (size sp)) h.
Proof.
  unfold analyze_structure, sort_desc.
  destruct (hist_fold (concat pages) []) as (H1 & H2 & H3 & H4).
  revert H1 H2 H3 H4.
  generalize (fold_left (fun h sp => hist_add (round1 (size sp)) h) (concat pages) []).
  intros h H1 H2 H3 H4.
  destruct (sort_desc_fold h [] (Sorted_nil _)) as [Hs Hp].
  rewrite app_nil_r in Hp.
  simpl. split; [|split; [|split; [|split]]].
  - rewrite (list_sum_perm _ _ (Permutation_map snd Hp)), H1. reflexivity.
  - change (NoDup (map key (fold_left (fun acc x => insert_desc x acc) h []))).
    rewrite (Permutation_map key Hp). apply H2. constructor.
  - apply List.Forall_forall. intros x Hx. apply (Permutation_in _ Hp) in Hx.
    revert x Hx. apply List.Forall_forall, H3. constructor.
  - exact Hs.
  - apply List.Forall_forall. intros x Hx. apply (Permutation_in _ Hp) in Hx.
    revert x Hx. apply List.Forall_forall.
    apply (H4 (fun q => exists sp, In sp (concat pages) /\ q = round1 (size sp))); [|constructor].
    apply List.Forall_forall. intros sp Hsp. exists sp. split; [exact Hsp|reflexivity].
Qed.

End Histogram.

(* ================================================================== *)
(** ** Block grouping of the chapter generator *)

Section ChapterOutput.
Import Semantic ChapterHtml.

Definition blank (sp : span) : Prop := Py.strip (text sp) = EmptyString.

(** Loop invariant of [generate_html_from_pages] after the spans [xs]. *)
Definition gen_inv (acc : option (list string) * list span * option Q) (xs : list span) : Prop :=
  let '(lines, block, cur) := acc in
  exists ls, lines = Some ls
    /\ Forall (fun sp => ~ blank sp) block
    /\ (block = [] <-> cur = None)
    /\ ((ls = [] /\ block = []) <-> Forall blank xs).

Lemma analyze_structure_sum (pages : list (list span)) :
  list_sum (map snd (analyze_structure pages)) = length (concat pages).
Proof.
  unfold analyze_structure, sort_desc.
  destruct (hist_fold (concat pages) []) as (H1 & _).
  revert H1. generalize (fold_left (fun h sp => hist_add (round1 (size sp)) h) (concat pages) []).
  intros h H1.
  destruct (sort_desc_fold h [] (Sorted_nil _)) as [_ Hp]. rewrite app_nil_r in Hp.
  rewrite (list_sum_perm _ _ (Permutation_map snd Hp)), H1. reflexivity.
Qed.

Lemma filter_all_true {A} (f : A -> bool) (l : list A) :
  Forall (fun x => f x = true) l -> List.filter f l = l.
Proof. induction 1 as [|x l Hx _ IH]; simpl; [reflexivity|]. rewrite Hx, IH. reflexivity. Qed.

Lemma process_text_block_some (block : list span) (cs : Q) (fs : list (Q * nat)) :
  fs <> [] -> block <> [] -> Forall (fun sp => ~ blank sp) block ->
  exists new, process_text_block block cs fs = Some new /\ new <> [].
Proof.
  intros Hfs Hb Hn. destruct fs as [|[s0 c0] rest]; [contradiction|].
  unfold process_text_block.
  destruct (Qle_bool _ _); [eexists; split; [reflexivity|discriminate]|].
  destruct (Qle_bool _ _); [eexists; split; [reflexivity|discriminate]|].
  rewrite (filter_all_true _ block).
  - destruct block as [|b bs]; [contradiction|]. simpl.
    eexists; split; [reflexivity|discriminate].
  - eapply Forall_impl; [exact Hn|]. intros sp Hsp. simpl.
    destruct (String.eqb_spec (Py.strip (text sp)) EmptyString); [contradiction|reflexivity].
Qed.

Lemma Forall_blank_snoc (xs : list span) (sp : span) :
  Forall blank (xs ++ [sp]) <-> Forall blank xs /\ blank sp.
Proof.
  rewrite List.Forall_app. split; intros [H1 H2]; split; auto.
  - inversion H2; assumption.
Qed.

Lemma gen_step_inv (fs : list (Q * nat)) acc xs sp :
  fs <> [] -> gen_inv acc xs -> gen_inv (gen_step fs acc sp) (xs ++ [sp]).
Proof.
  intros Hfs. destruct acc as [[lines block] cur].
  intros (ls & -> & Hnb & Hbc & Hall).
  unfold gen_step.
  destruct (String.eqb_spec (Py.strip (text sp)) EmptyString) as [Hbl|Hnbl].
  - exists ls. split; [reflexivity|]. split; [exact Hnb|]. split; [exact Hbc|].
    rewrite Forall_blank_snoc. rewrite Hall. split; [intros H; split; [exact H|exact Hbl]|tauto].
  - assert (Hnot : ~ Forall blank (xs ++ [sp])).
    { rewrite Forall_blank_snoc. intros [_ H]. exact (Hnbl H). }
    destruct cur as [cs|].
    + destruct (Py.Qlt_bool 3 (Qabs (size sp - cs))).
      * assert (Hne : block <> []) by (intros E; apply Hbc in E; discriminate).
        destruct block as [|b bs]; [contradiction|].
        destruct (process_text_block_some (b :: bs) cs fs Hfs Hne Hnb) as (new & Hnew & Hnn).
        rewrite Hnew. exists (ls ++ new). split; [reflexivity|].
        split; [constructor; [exact Hnbl|constructor]|].
        split; [split; discriminate|].
        split; [intros [_ H]; discriminate|intros H; contradiction].
      * exists ls. split; [reflexivity|].
        split; [apply List.Forall_app; split; [exact Hnb|constructor; [exact Hnbl|constructor]]|].
        split; [split; [intros H; destruct block; discriminate|discriminate]|].
        split; [intros [_ H]; destruct block; discriminate|intros H; contradiction].
    + exists ls. split; [reflexivity|].
      split; [apply List.Forall_app; split; [exact Hnb|constructor; [exact Hnbl|constructor]]|].
      split; [split; [intros H; destruct block; discriminate|discriminate]|].
      split; [intros [_ H]; destruct block; discriminate|intros H; contradiction].
Qed.

Lemma gen_fold_inv (fs : list (Q * nat)) (l : list span) :
  fs <> [] -> forall acc xs, gen_inv acc xs -> gen_inv (fold_left (gen_step fs) l acc) (xs ++ l).
Proof.
  intros Hfs. induction l as [|sp l IH]; intros acc xs Hi; simpl.
  - rewrite app_nil_r. exact Hi.
  - replace (xs ++ sp :: l) with ((xs ++ [sp]) ++ l) by (rewrite <- app_assoc; reflexivity).
    apply IH, gen_step_inv; assumption.
Qed.

(** [generate_html_from_pages] never fails on the [font_sizes[0]] lookup
    of [process_text_block]: it always returns its list of lines, and that
    list is empty exactly when every span of every page has blank text. *)
Theorem generate_html_total (pages : list (list span)) :
  exists ls, generate_html_from_pages pages = Some ls
    /\ (ls = [] <-> Forall (fun sp => Py.strip (text sp) = EmptyString) (concat pages)).
Proof.
  change (Forall (fun sp => Py.strip (text sp) = EmptyString) (concat pages))
    with (Forall blank (concat pages)).
  unfold generate_html_from_pages.
  destruct (concat pages) as [|sp0 rest] eqn:Ec.
  - simpl. exists []. split; [reflexivity|]. split; intros; [constructor|reflexivity].
  - assert (Hfs : analyze_structure pages <> []).
    { intros E. pose proof (analyze_structure_sum pages) as Hs.
      rewrite E, Ec in Hs. discriminate. }
    assert (Hi : gen_inv (Some [], [], None) []).
    { exists []. split; [reflexivity|]. split; [constructor|].
      split; [split; reflexivity|]. split; intros; [constructor|split; reflexivity]. }
    pose proof (gen_fold_inv _ (sp0 :: rest) Hfs _ _ Hi) as Hf. simpl app in Hf.
    revert Hf. generalize (fold_left (gen_step (analyze_structure pages)) (sp0 :: rest) (Some [], [], None)).
    intros [[lines block] cur] (ls & -> & Hnb & Hbc & Hall).
    destruct block as [|b bs].
    + exists ls. split; [reflexivity|]. rewrite <- Hall. tauto.
    + destruct cur as [cs|]; [|exfalso; pose proof (proj2 Hbc eq_refl) as E; discriminate E].
      destruct (process_text_block_some (b :: bs) cs _ Hfs ltac:(discriminate) Hnb) as (new & Hnew & Hnn).
      rewrite Hnew. exists (ls ++ new). split; [reflexivity|].
      rewrite <- Hall. split.
      * intros H. apply app_eq_nil in H as [_ H]. contradiction.
      * intros [_ H]. discriminate.
Qed.

Lemma generate_html_total_witness :
  exists ls, generate_html_from_pages [[mk_span "Intro" 12 false false]] = Some ls
    /\ (ls = [] <-> Forall (fun sp => Py.strip (text sp) = EmptyString)
                          (concat [[mk_span "Intro" 12 false false]])).
Proof. exact (generate_html_total [[mk_span "Intro" 12 false false]]). Defined.

End ChapterOutput.

(* ================================================================== *)
(** ** What the duplicate finder reports *)

Section DuplicateEntries.
Import Dedup.

Definition matches (bs : list block) (n : string) : list block :=
  List.filter (fun b => String.eqb (normalize b) n) bs.

(** [len(seen_content[n])] never exceeds the number of earlier blocks with
    normalized text [n]. *)
Definition cnt_inv (pre : list block) (seen : gmap string (list nat)) : Prop :=
  forall n l, seen !! n = Some l -> length l <= length (matches pre n).

(** An entry built by the scan for some block of [all]. *)
Definition built_entry (all : list block) (d : dup) : Prop :=
  exists n j b, long n = true /\ all !! j = Some b /\ normalize b = n
    /\ d = mk_dup (substring 0 100 n) (btype b) (positions all n) (d_count d)
    /\ 2 <= d_count d <= length (matches all n).

Lemma matches_app (a b : list block) (n : string) :
  matches (a ++ b) n = matches a n ++ matches b n.
Proof. unfold matches. apply List.filter_app. Qed.

Lemma positions_from_length (s : nat) (bs : list block) (n : string) :
  length (positions_from s bs n) = length (matches bs n).
Proof.
  revert s. induction bs as [|b bs IH]; intros s; simpl; [reflexivity|].
  destruct (String.eqb (normalize b) n); simpl; rewrite IH; reflexivity.
Qed.

Lemma positions_from_iff (n : string) (bs : list block) :
  forall s j, In j (positions_from s bs n)
    <-> exists k b, j = s + k /\ bs !! k = Some b /\ normalize b = n.
Proof.
  induction bs as [|b0 bs IH]; intros s j; simpl.
  - split; [intros []|intros (k & b & _ & Hk & _); discriminate].
  - split.
    + intros Hin.
      assert (Hr : In j (positions_from (S s) bs n) ->
                   exists k b, j = s + k /\ (b0 :: bs) !! k = Some b /\ normalize b = n).
      { intros H. apply IH in H as (k & b & -> & Hk & Hn).
        exists (S k), b. split; [lia|]. split; [exact Hk|exact Hn]. }
      destruct (String.eqb_spec (normalize b0) n) as [E|E].
      * destruct Hin as [<-|Hin]; [|exact (Hr Hin)].
        exists 0, b0. split; [lia|]. split; [reflexivity|exact E].
      * exact (Hr Hin).
    + intros (k & b & -> & Hk & Hn).
      exact (positions_from_in n (b0 :: bs) s k b Hk Hn).
Qed.

Lemma positions_from_sorted (n : string) (bs : list block) :
  forall s, Sorted lt (positions_from s bs n) /\ Forall (fun j => s <= j) (positions_from s bs n).
Proof.
  induction bs as [|b0 bs IH]; intros s; simpl; [split; constructor|].
  destruct (IH (S s)) as [Hs Hf].
  destruct (String.eqb (normalize b0) n).
  - split.
    + constructor; [exact Hs|].
      destruct (positions_from (S s) bs n) as [|j js]; constructor.
      inversion Hf; lia.
    + constructor; [lia|]. eapply List.Forall_impl; [|exact Hf]. intros j Hj; simpl in Hj; lia.
  - split; [exact Hs|]. eapply List.Forall_impl; [|exact Hf]. intros j Hj; simpl in Hj; lia.
Qed.

Lemma cnt_inv_nil : cnt_inv [] ∅.
Proof. intros n l H. rewrite lookup_empty in H. discriminate. Qed.

Lemma cnt_inv_step (pre : list block) (seen : gmap string (list nat)) (b : block) (i : nat) :
  cnt_inv pre seen ->
  cnt_inv (pre ++ [b])
    (if long (normalize b)
     then <[normalize b := default [] (seen !! normalize b) ++ [i]]> seen else seen).
Proof.
  intros Hc n l. rewrite matches_app, length_app.
  assert (Hmono : forall l', seen !! n = Some l' -> length l' <= length (matches pre n) + length (matches [b] n)).
  { intros l' H. specialize (Hc n l' H). lia. }
  destruct (long (normalize b)); [|exact (Hmono l)].
  destruct (decide (n = normalize b)) as [->|Hn].
  - rewrite lookup_insert_eq. intros [= <-]. rewrite length_app.
    simpl. rewrite String.eqb_refl. simpl.
    destruct (seen !! normalize b) as [l0|] eqn:E; simpl.
    + specialize (Hc _ _ E). lia.
    + lia.
  - rewrite lookup_insert_ne by congruence. exact (Hmono l).
Qed.

Lemma scan_sound (all bs : list block) :
  forall pre i seen dups, all = pre ++ bs -> i = length pre ->
  seen_inv pre seen -> cnt_inv pre seen ->
  forall d, d ∈ scan all i bs seen dups -> d ∈ dups \/ built_entry all d.
Proof.
  induction bs as [|b bs IH]; intros pre i seen dups Hall Hi Hs Hc d Hd; [auto|].
  rewrite scan_step in Hd.
  destruct (IH (pre ++ [b]) (S i) _ _ ltac:(rewrite <- app_assoc; exact Hall)
              ltac:(rewrite length_app; simpl; lia)
              (seen_inv_step pre seen b i Hs) (cnt_inv_step pre seen b i Hc) d Hd)
    as [H|H]; [|auto].
  destruct (long (normalize b)) eqn:Hl; [|auto].
  destruct (seen !! normalize b) as [l|] eqn:E; [|auto].
  rewrite elem_of_app, list_elem_of_singleton in H. destruct H as [H | ->]; [auto|].
  right. exists (normalize b), i, b. split; [exact Hl|].
  split; [rewrite Hall, Hi, lookup_app_r, Nat.sub_diag by lia; reflexivity|].
  split; [reflexivity|]. split; [reflexivity|]. simpl.
  destruct Hs as [_ Hne]. specialize (Hne _ _ E). specialize (Hc _ _ E).
  rewrite Hall, matches_app, length_app. simpl. rewrite String.eqb_refl. simpl.
  destruct l; [contradiction|simpl in *; lia].
Qed.

Lemma unique_nodup (ds : list dup) :
  forall acc, NoDup (map d_positions acc) -> NoDup (map d_positions (fold_left unique_step ds acc)).
Proof.
  induction ds as [|x ds IH]; intros acc Hn; simpl; [exact Hn|].
  apply IH. unfold unique_step. destruct (existsb _ acc) eqn:E; [exact Hn|].
  rewrite map_app. apply NoDup_app. split; [exact Hn|]. split; [|apply NoDup_singleton].
  intros p Hp Hp'. simpl in Hp'. apply list_elem_of_singleton in Hp'. subst p.
  apply list_elem_of_fmap in Hp as (d' & Hd' & Hin).
  assert (Ht : existsb (fun d'' => bool_decide (d_positions d'' = d_positions x)) acc = true).
  { apply existsb_exists. exists d'. split; [apply list_elem_of_In, Hin|].
    apply bool_decide_eq_true. symmetry. exact Hd'. }
  congruence.
Qed.

(** Every entry [find_duplicates] reports is a real repetition: for a
    normalized text [n] longer than 50 characters, its content is the
    first 100 characters of [n], its positions are exactly the indices of
    the blocks whose normalized text is [n], in increasing order, its type
    is that of one of those blocks, and its count is at least 2 and at
    most the number of positions.  No two entries have the same positions. *)
Theorem find_duplicates_sound (content_blocks : list block) :
  NoDup (map d_positions (find_duplicates content_blocks))
  /\ forall d, d ∈ find_duplicates content_blocks ->
     exists n, 50 < String.length n
       /\ d_content d = substring 0 100 n
       /\ (forall j, In j (d_positions d)
                     <-> exists b, content_blocks !! j = Some b /\ normalize b = n)
       /\ Sorted lt (d_positions d)
       /\ (exists j b, content_blocks !! j = Some b /\ normalize b = n /\ d_type d = btype b)
       /\ 2 <= d_count d <= length (d_positions d).
Proof.
  split; [unfold find_duplicates; apply unique_nodup; constructor|].
  intros d Hd. unfold find_duplicates in Hd.
  destruct (unique_from _ [] d Hd) as [H|H]; [apply not_elem_of_nil in H; contradiction|].
  destruct (scan_sound content_blocks content_blocks [] 0 ∅ [] eq_refl eq_refl
              seen_inv_nil cnt_inv_nil d H) as [H'|H'];
    [apply not_elem_of_nil in H'; contradiction|].
  destruct H' as (n & j & b & Hl & Hj & Hn & Hdef & Hc).
  exists n. rewrite Hdef. simpl.
  split; [apply Nat.ltb_lt, Hl|]. split; [reflexivity|].
  unfold positions. split; [|split; [|split]].
  - intros k. rewrite positions_from_iff. split.
    + intros (k' & b' & -> & Hk & Hn'). exists b'. split; [exact Hk|exact Hn'].
    + intros (b' & Hk & Hn'). exists k, b'. split; [lia|]. split; [exact Hk|exact Hn'].
  - apply positions_from_sorted.
  - exists j, b. split; [exact Hj|]. split; [exact Hn|reflexivity].
  - rewrite positions_from_length. exact Hc.
Qed.

Definition dup_text : string :=
  "The same sentence of more than fifty characters appears twice.".

Lemma find_duplicates_sound_witness :
  exists d, d ∈ find_duplicates [mk_block "paragraph" dup_text; mk_block "paragraph" dup_text]
    /\ 2 <= d_count d <= length (d_positions d).
Proof.
  assert (Hin : mk_dup (substring 0 100 dup_text) "paragraph" [0; 1] 2
                ∈ find_duplicates [mk_block "paragraph" dup_text; mk_block "paragraph" dup_text]).
  { vm_compute. apply list_elem_of_here. }
  eexists. split; [exact Hin|].
  destruct (proj2 (find_duplicates_sound _) _ Hin) as (n & _ & _ & _ & _ & _ & Hc).
  exact Hc.
Defined.

End DuplicateEntries.

(* ================================================================== *)
(** ** Attempt history and scores of the state manager *)

Section ManagerHistory.
Import StateManager.

Definition history_ok (st : vstate) : Prop :=
  get_last_attempt st = last_result st
  /\ Sorted le (map a_attempt_number (attempts st))
  /\ Forall (fun a => a_attempt_number a <= retry_count st) (attempts st)
  /\ max_retries st = 3.

Lemma sorted_snoc (l : list nat) (x : nat) :
  Sorted le l -> Forall (fun y => y <= x) l -> Sorted le (l ++ [x]).
Proof.
  induction l as [|y l IH]; simpl; intros Hs Hf; [repeat constructor|].
  inversion Hs as [|? ? Hs' Hh]; subst. inversion Hf as [|? ? Hy Hf']; subst.
  constructor; [exact (IH Hs' Hf')|].
  destruct l as [|z l]; simpl; constructor; [exact Hy|]. inversion Hh; assumption.
Qed.

Lemma history_ok_new : history_ok new_state.
Proof. split; [reflexivity|]. split; [constructor|]. split; [constructor|reflexivity]. Qed.

Lemma history_ok_step (st : vstate) (o : op) : history_ok st -> history_ok (apply_op st o).
Proof.
  intros (Hl & Hs & Hf & Hm). destruct o; simpl.
  - unfold record_attempt. split; [unfold get_last_attempt; simpl; rewrite rev_app_distr; reflexivity|].
    split; [simpl; rewrite map_app; apply sorted_snoc; [exact Hs|]|].
    + apply List.Forall_map. exact Hf.
    + split; [|exact Hm]. apply List.Forall_app. split; [exact Hf|].
      constructor; [simpl; unfold get_retry_count; lia|constructor].
  - split; [exact Hl|]. split; [exact Hs|]. split; [exact Hf|exact Hm].
  - split; [exact Hl|]. split; [exact Hs|]. split; [exact Hf|exact Hm].
  - split; [exact Hl|]. split; [exact Hs|]. split; [exact Hf|exact Hm].
  - split; [exact Hl|]. split; [exact Hs|]. split; [|exact Hm]. simpl.
    eapply List.Forall_impl; [|exact Hf]. intros a Ha. unfold increment_retry, get_retry_count in *. simpl in *. lia.
  - exact history_ok_new.
Qed.

(** Along any sequence of calls on a manager created without a state
    file, [last_result] is always the last element of [attempts] (what
    [get_last_attempt] returns), the recorded attempt numbers are
    non-decreasing and never exceed the current retry count, and
    [max_retries] stays 3. *)
Theorem manager_history_invariant (ops : list op) :
  get_last_attempt (run ops) = last_result (run ops)
  /\ Sorted le (map a_attempt_number (attempts (run ops)))
  /\ Forall (fun a => a_attempt_number a <= retry_count (run ops)) (attempts (run ops))
  /\ max_retries (run ops) = 3.
Proof.
  change (history_ok (run ops)). unfold run.
  generalize new_state history_ok_new. induction ops as [|o ops IH]; intros st Hst; simpl.
  - exact Hst.
  - apply IH, history_ok_step, Hst.
Qed.

Lemma update_scores_absent (k : string) (scores : list (string * option Q)) :
  forall vs, (forall v, ~ In (k, Some v) scores) -> update_scores vs scores !! k = vs !! k.
Proof.
  induction scores as [|[k' [v'|]] scores IH]; intros vs Hn; [reflexivity| |].
  - change (update_scores (<[k' := Some v']> vs) scores !! k = vs !! k).
    rewrite IH by (intros v Hv; exact (Hn v (or_intror Hv))).
    rewrite lookup_insert_ne; [reflexivity|]. intros <-. exact (Hn v' (or_introl eq_refl)).
  - change (update_scores vs scores !! k = vs !! k).
    apply IH. intros v Hv. exact (Hn v (or_intror Hv)).
Qed.

Lemma update_scores_app (vs : gmap string (option Q)) (a b : list (string * option Q)) :
  update_scores vs (a ++ b) = update_scores (update_scores vs a) b.
Proof. unfold update_scores. apply fold_left_app. Qed.

(** [record_attempt]'s score update: a key that [scores] gives no value
    other than [None] keeps its previous entry (so [None] never erases a
    score), and a key whose last non-[None] value in [scores] is [v] ends
    up with [v]. *)
Theorem update_scores_lookup (vs : gmap string (option Q)) (scores : list (string * option Q))
    (k : string) :
  ((forall v, ~ In (k, Some v) scores) -> update_scores vs scores !! k = vs !! k)
  /\ (forall pre v post, scores = pre ++ (k, Some v) :: post ->
      (forall v', ~ In (k, Some v') post) -> update_scores vs scores !! k = Some (Some v)).
Proof.
  split; [apply update_scores_absent|].
  intros pre v post -> Hn.
  rewrite update_scores_app. change ((k, Some v) :: post) with ([(k, Some v)] ++ post).
  rewrite update_scores_app, update_scores_absent by exact Hn.
  simpl. apply lookup_insert_eq.
Qed.

Lemma update_scores_lookup_witness :
  update_scores new_state.(validation_scores) [("text_coverage", Some 97%Q); ("html_structure", None)]
    !! "html_structure" = Some None
  /\ update_scores new_state.(validation_scores) [("text_coverage", Some 97%Q); ("html_structure", None)]
    !! "text_coverage" = Some (Some 97%Q).
Proof.
  split.
  - rewrite (proj1 (update_scores_lookup _ _ "html_structure")).
    + reflexivity.
    + intros v [H|[H|[]]]; discriminate.
  - apply (proj2 (update_scores_lookup _ _ "text_coverage") [] 97%Q [("html_structure", None)]).
    + reflexivity.
    + intros v' [H|[]]. discriminate.
Defined.

End ManagerHistory.
